(** * Service binding operator: the binder and the OLM resolver

    A shallow embedding of package [servicebindingrequest]
    (binder.go and olm.go).  Go packages the code imports are modelled as
    modules of the same name; the calls into the cluster and into the
    reflection-based converter are interfaces (classes and records of
    functions), so every statement holds for any implementation of them. *)

From Stdlib Require Import Ascii.
From stdpp Require Import gmap strings list fin_maps infinite.

Set Warnings "-register-all".
Open Scope string_scope.
Open Scope list_scope.

(** ** Results of Go calls

    A call returns a value, returns a non-nil [error], or panics. *)

Inductive error : Type :=
| ErrUnsupportedKind (kind : string)
    (* "resource kind '%s' is not supported by this operator" *)
| ErrNestedPathNotFound (path : list string) (kind : string)
    (* "unable to find '%#v' in object kind '%s'" *)
| ErrAccessor (path : list string)
    (* unstructured: "... accessor error: ... is of the type ..." *)
| ErrNotAMap (path : list string)
    (* unstructured: "value cannot be set because ... is not a map" *)
| ErrExternal (msg : string).
    (* any error of the converter or of the object store *)

Inductive panic : Type :=
| NilDereference
| TypeAssertion
| SliceBounds.

Inductive outcome (A : Type) : Type :=
| Ok (a : A)
| Err (e : error)
| Panic (p : panic).
Arguments Ok {A} a.
Arguments Err {A} e.
Arguments Panic {A} p.

#[global] Instance outcome_bind : MBind outcome := λ A B f m,
  match m with
  | Ok a => f a
  | Err e => Err e
  | Panic p => Panic p
  end.

#[global] Instance outcome_ret : MRet outcome := λ A a, Ok a.

#[global] Instance outcome_fmap : FMap outcome := λ A B f m,
  match m with
  | Ok a => Ok (f a)
  | Err e => Err e
  | Panic p => Panic p
  end.

(** ** package strings

    [ToLower] and [EqualFold] work on Unicode; the code only composes them,
    so they are an interface. *)

Class GoStrings : Type := {
  ToLower : string → string;
  EqualFold : string → string → bool
}.

(** ** package unstructured: schema-less JSON objects *)

Module unstructured.

Inductive value : Type :=
| VNil
| VBool (b : bool)
| VInt (z : Z)
| VString (s : string)
| VSlice (l : list value)
| VMap (m : gmap string value).

Record Unstructured : Type := { Object : gmap string value }.

(** The three results [(val, found, err)] of the nested accessors. *)
Inductive nested (A : Type) : Type :=
| Found (a : A)
| NotFound
| AccessErr (e : error).
Arguments Found {A} a.
Arguments NotFound {A}.
Arguments AccessErr {A} e.

(** [NestedFieldNoCopy]: [walked] is the part of the path already
    followed, kept for the error message.  A key that a map on the way
    lacks is a path not found; a value on the way that is not a map, nil
    included, is an error. *)
Fixpoint nestedFieldFrom (walked : list string) (val : value)
    (fields : list string) : nested value :=
  match fields with
  | [] => Found val
  | field :: fields' =>
      match val with
      | VMap m =>
          match m !! field with
          | Some v => nestedFieldFrom (walked ++ [field]) v fields'
          | None => NotFound
          end
      | _ => AccessErr (ErrAccessor (walked ++ [field]))
      end
  end.

Definition NestedFieldNoCopy (obj : gmap string value)
    (fields : list string) : nested value :=
  nestedFieldFrom [] (VMap obj) fields.

Definition NestedSlice (obj : gmap string value) (fields : list string)
    : nested (list value) :=
  match NestedFieldNoCopy obj fields with
  | Found (VSlice l) => Found l
  | Found _ => AccessErr (ErrAccessor fields)
  | NotFound => NotFound
  | AccessErr e => AccessErr e
  end.

Definition NestedString (obj : gmap string value) (fields : list string)
    : nested string :=
  match NestedFieldNoCopy obj fields with
  | Found (VString s) => Found s
  | Found _ => AccessErr (ErrAccessor fields)
  | NotFound => NotFound
  | AccessErr e => AccessErr e
  end.

(** [getNestedString]: the empty string unless a string is found. *)
Definition getNestedString (obj : gmap string value)
    (fields : list string) : string :=
  match NestedString obj fields with
  | Found s => s
  | _ => ""
  end.

Definition GetKind (u : Unstructured) : string :=
  getNestedString (Object u) ["kind"].

Definition GetName (u : Unstructured) : string :=
  getNestedString (Object u) ["metadata"; "name"].

(** [setNestedFieldNoCopy]: missing intermediate maps are created. *)
Fixpoint setNestedFieldFrom (walked : list string)
    (m : gmap string value) (v : value) (fields : list string)
    : outcome (gmap string value) :=
  match fields with
  | [] => Panic SliceBounds
  | [field] => Ok (<[field := v]> m)
  | field :: fields' =>
      match m !! field with
      | Some (VMap valMap) =>
          m' ← setNestedFieldFrom (walked ++ [field]) valMap v fields';
          Ok (<[field := VMap m']> m)
      | Some _ => Err (ErrNotAMap (walked ++ [field]))
      | None =>
          m' ← setNestedFieldFrom (walked ++ [field]) ∅ v fields';
          Ok (<[field := VMap m']> m)
      end
  end.

Definition SetNestedSlice (obj : gmap string value) (v : list value)
    (fields : list string) : outcome (gmap string value) :=
  setNestedFieldFrom [] obj (VSlice v) fields.

End unstructured.
Export unstructured.

(** ** package schema *)

Module schema.

Record GroupVersionKind : Type :=
  { Group : string; Version : string; Kind : string }.

Record GroupVersionResource : Type :=
  { gvrGroup : string; gvrVersion : string; gvrResource : string }.

Record GroupResource : Type :=
  { grGroup : string; grResource : string }.

(** The text before and after the first dot ([strings.Index]). *)
Fixpoint cutDot (s : string) : option (string * string) :=
  match s with
  | EmptyString => None
  | String c s' =>
      if Ascii.eqb c "."%char then Some ("", s')
      else match cutDot s' with
           | Some (before, after) => Some (String c before, after)
           | None => None
           end
  end.

Definition ParseGroupResource (gr : string) : GroupResource :=
  match cutDot gr with
  | Some (resource, group) => {| grGroup := group; grResource := resource |}
  | None => {| grGroup := ""; grResource := gr |}
  end.

(** [<resource>.<version>.<group>] when there are two dots, and in every
    case the [<resource>.<group>] reading. *)
Definition ParseResourceArg (arg : string)
    : option GroupVersionResource * GroupResource :=
  let gvr :=
    match cutDot arg with
    | Some (resource, rest) =>
        match cutDot rest with
        | Some (version, group) =>
            Some {| gvrGroup := group; gvrVersion := version;
                    gvrResource := resource |}
        | None => None
        end
    | None => None
    end in
  (gvr, ParseGroupResource arg).

End schema.

(** ** package types *)

Module types.
Record NamespacedName : Type := { Namespace : string; Name : string }.
End types.

(** ** package corev1: the part of a container the binder works on *)

Module corev1.

Record LocalObjectReference : Type := { Name : string }.

Record ConfigMapEnvSource : Type :=
  { configMapReference : LocalObjectReference;
    configMapOptional : option bool }.

Record SecretEnvSource : Type :=
  { secretReference : LocalObjectReference;
    secretOptional : option bool }.

(** [ConfigMapRef] and [SecretRef] are pointers: [None] is nil. *)
Record EnvFromSource : Type :=
  { Prefix : string;
    ConfigMapRef : option ConfigMapEnvSource;
    SecretRef : option SecretEnvSource }.

(** [OtherFields] holds the fields of a container the binder never
    reads, in their JSON form. *)
Record Container : Type :=
  { EnvFrom : list EnvFromSource;
    OtherFields : gmap string value }.

End corev1.

(** ** package olmv1alpha1 *)

Module olmv1alpha1.

(** [Descriptors] holds the resource, status, spec and action
    descriptors, which this package never reads, in their JSON form. *)
Record CRDDescription : Type :=
  { Name : string;
    Version : string;
    Kind : string;
    DisplayName : string;
    Description : string;
    Descriptors : gmap string value }.

(** [SchemeGroupVersion.WithResource(resource)] *)
Definition SchemeGroupVersionWithResource (resource : string)
    : schema.GroupVersionResource :=
  {| schema.gvrGroup := "operators.coreos.com";
     schema.gvrVersion := "v1alpha1";
     schema.gvrResource := resource |}.

End olmv1alpha1.

(** ** package runtime: [DefaultUnstructuredConverter]

    The converter works by reflection over the whole Go type; the code only
    calls it, so it is an interface. *)

Class UnstructuredConverter : Type := {
  containerFromUnstructured : gmap string value → outcome corev1.Container;
  containerToUnstructured : corev1.Container → outcome (gmap string value);
  crdFromUnstructured : gmap string value → outcome olmv1alpha1.CRDDescription
}.

(** ** package dynamic: the client the OLM resolver reads with *)

Module dynamic.

(** [client.Resource(gvr).Namespace(ns).List(opts)] and [.Get(name, opts)]. *)
Record Interface : Type :=
  { List : schema.GroupVersionResource → string → outcome (list Unstructured);
    Get : schema.GroupVersionResource → string → string → outcome Unstructured }.

End dynamic.

(** ** package client (controller-runtime): the client the binder uses

    [Cluster] is the state of the object store.  [Update] returns nil or an
    error, together with the state it leaves. *)

Module ctrlclient.

Record ListOptions : Type :=
  { Namespace : string; LabelSelector : gmap string string }.

Record Client (Cluster : Type) : Type :=
  { List : ListOptions → schema.GroupVersionKind → Cluster
           → outcome (list Unstructured);
    Update : Unstructured → Cluster → option error * Cluster }.
Arguments List {Cluster} _ _ _ _.
Arguments Update {Cluster} _ _ _.

End ctrlclient.

(** ** package v1alpha1: the binding request *)

Module v1alpha1.

Record ApplicationSelector : Type :=
  { ResourceKind : string; MatchLabels : gmap string string }.

Record BackingSelector : Type :=
  { ResourceName : string; ResourceVersion : string }.

(** Modelled from the spec: the declaration of [ServiceBindingRequest]
    (pkg/apis/apps/v1alpha1) is not among the sources; the fields are
    those the binder reads ([GetName], [GetNamespace],
    [Spec.ApplicationSelector]) and the backing selector of the spec's
    data model. *)
Record ServiceBindingRequest : Type :=
  { Name : string;
    Namespace : string;
    SpecApplicationSelector : ApplicationSelector;
    SpecBackingSelector : BackingSelector }.

Definition GetName (sbr : ServiceBindingRequest) : string := Name sbr.
Definition GetNamespace (sbr : ServiceBindingRequest) : string :=
  Namespace sbr.

End v1alpha1.

(** ** binder.go *)

Section binder.
Context `{GoStrings} `{UnstructuredConverter} {Cluster : Type}.

(** The request context and the logger take no part in any result. *)
Record Binder : Type :=
  { client : ctrlclient.Client Cluster;
    sbr : v1alpha1.ServiceBindingRequest }.

(** The object store, and the objects handed to [Update] so far. *)
Record World : Type :=
  { cluster : Cluster;
    issued : list Unstructured }.

Record UnstructuredList : Type :=
  { ListGVK : schema.GroupVersionKind;
    Items : list Unstructured }.

Definition getResourceKind (b : Binder) : string :=
  ToLower (v1alpha1.ResourceKind (v1alpha1.SpecApplicationSelector (sbr b))).

Definition getListGVK (b : Binder) : outcome schema.GroupVersionKind :=
  let kind := getResourceKind b in
  if String.eqb kind "deploymentconfig" then
    Ok {| schema.Group := "apps.openshift.io";
          schema.Version := "v1";
          schema.Kind := "DeploymentConfigList" |}
  else if String.eqb kind "deployment" then
    Ok {| schema.Group := "apps";
          schema.Version := "v1";
          schema.Kind := "DeploymentList" |}
  else Err (ErrUnsupportedKind kind).

Definition search (b : Binder) (w : World) : outcome UnstructuredList :=
  let ns := v1alpha1.GetNamespace (sbr b) in
  let matchLabels :=
    v1alpha1.MatchLabels (v1alpha1.SpecApplicationSelector (sbr b)) in
  gvk ← getListGVK b;
  let opts := {| ctrlclient.Namespace := ns;
                 ctrlclient.LabelSelector := matchLabels |} in
  items ← ctrlclient.List (client b) opts gvk (cluster w);
  Ok {| ListGVK := gvk; Items := items |}.

Definition secretEnvFrom (secret : string) : corev1.EnvFromSource :=
  {| corev1.Prefix := "";
     corev1.ConfigMapRef := None;
     corev1.SecretRef :=
       Some {| corev1.secretReference := {| corev1.Name := secret |};
               corev1.secretOptional := None |} |}.

(** The loop of [appendEnvFrom] over the entries still to inspect;
    [envList] is the whole list, returned as it is on a match. *)
Fixpoint appendEnvFromScan (envList rest : list corev1.EnvFromSource)
    (secret : string) : outcome (list corev1.EnvFromSource) :=
  match rest with
  | [] => Ok (envList ++ [secretEnvFrom secret])
  | env :: rest' =>
      match corev1.SecretRef env with
      | None => Panic NilDereference
      | Some ref =>
          if String.eqb (corev1.Name (corev1.secretReference ref)) secret
          then Ok envList
          else appendEnvFromScan envList rest' secret
      end
  end.

Definition appendEnvFrom (envList : list corev1.EnvFromSource)
    (secret : string) : outcome (list corev1.EnvFromSource) :=
  appendEnvFromScan envList envList secret.

Definition nestedPath : list string :=
  ["spec"; "template"; "spec"; "containers"].

(** The loop of [update] over the containers of one object. *)
Fixpoint bindContainers (b : Binder) (containers : list value)
    : outcome (list value) :=
  match containers with
  | [] => Ok []
  | container :: containers' =>
      match container with
      | VMap u =>
          c ← containerFromUnstructured u;
          envFrom ← appendEnvFrom (corev1.EnvFrom c)
                      (v1alpha1.GetName (sbr b));
          bindContainer ← containerToUnstructured
            {| corev1.EnvFrom := envFrom;
               corev1.OtherFields := corev1.OtherFields c |};
          bound ← bindContainers b containers';
          Ok (VMap bindContainer :: bound)
      | _ => Panic TypeAssertion
      end
  end.

(** One round of the loop of [update] up to the call of [Update]: the
    object as it is handed to the store. *)
Definition bindObject (b : Binder) (obj : Unstructured)
    : outcome Unstructured :=
  match NestedSlice (Object obj) nestedPath with
  | AccessErr e => Err e
  | NotFound => Err (ErrNestedPathNotFound nestedPath (GetKind obj))
  | Found containers =>
      bound ← bindContainers b containers;
      object ← SetNestedSlice (Object obj) bound nestedPath;
      Ok {| Object := object |}
  end.

Definition clientUpdate (b : Binder) (obj : Unstructured) (w : World)
    : option error * World :=
  let (err, cluster') := ctrlclient.Update (client b) obj (cluster w) in
  (err, {| cluster := cluster'; issued := issued w ++ [obj] |}).

(** [update], as a loop over [objList.Items]. *)
Fixpoint updateItems (b : Binder) (items : list Unstructured) (w : World)
    : outcome unit * World :=
  match items with
  | [] => (Ok (), w)
  | obj :: items' =>
      match bindObject b obj with
      | Err e => (Err e, w)
      | Panic p => (Panic p, w)
      | Ok obj' =>
          match clientUpdate b obj' w with
          | (Some e, w') => (Err e, w')
          | (None, w') => updateItems b items' w'
          end
      end
  end.

Definition update (b : Binder) (objList : UnstructuredList) (w : World)
    : outcome unit * World :=
  updateItems b (Items objList) w.

Definition Bind (b : Binder) (w : World) : outcome unit * World :=
  match search b w with
  | Err e => (Err e, w)
  | Panic p => (Panic p, w)
  | Ok objList => update b objList w
  end.

End binder.
Arguments Binder : clear implicits.
Arguments World : clear implicits.

(** ** olm.go *)

Section olm.
Context `{GoStrings} `{UnstructuredConverter}.

Record OLM : Type :=
  { olmClient : dynamic.Interface;
    ns : string }.

Definition csvResource : string := "clusterserviceversions".

Definition listCSVs (o : OLM) : outcome (list Unstructured) :=
  let gvr := olmv1alpha1.SchemeGroupVersionWithResource csvResource in
  dynamic.List (olmClient o) gvr (ns o).

Definition ownedPath : list string :=
  ["spec"; "customresourcedefinitions"; "owned"].

(** The inner loop of [extractOwnedCRDs], appending to [crds]. *)
Fixpoint appendOwnedCRDs (crds : list Unstructured)
    (ownedCRDs : list value) : outcome (list Unstructured) :=
  match ownedCRDs with
  | [] => Ok crds
  | crd :: ownedCRDs' =>
      match crd with
      | VMap data => appendOwnedCRDs (crds ++ [{| Object := data |}]) ownedCRDs'
      | _ => Panic TypeAssertion
      end
  end.

(** The outer loop of [extractOwnedCRDs], appending to [crds]. *)
Fixpoint extractOwnedCRDsFrom (crds : list Unstructured)
    (csvs : list Unstructured) : outcome (list Unstructured) :=
  match csvs with
  | [] => Ok crds
  | csv :: csvs' =>
      match NestedSlice (Object csv) ownedPath with
      | AccessErr e => Err e
      | NotFound => extractOwnedCRDsFrom crds csvs'
      | Found ownedCRDs =>
          crds' ← appendOwnedCRDs crds ownedCRDs;
          extractOwnedCRDsFrom crds' csvs'
      end
  end.

Definition extractOwnedCRDs (csvs : list Unstructured)
    : outcome (list Unstructured) :=
  extractOwnedCRDsFrom [] csvs.

Definition ListCSVOwnedCRDs (o : OLM) : outcome (list Unstructured) :=
  csvs ← listCSVs o;
  extractOwnedCRDs csvs.

(** [fn] updates the variables its closure captured, here a state [S];
    the state is kept when a conversion fails. *)
Fixpoint loopCRDDescritions {S : Type} (ownedCRDs : list Unstructured)
    (fn : olmv1alpha1.CRDDescription → S → S) (s : S)
    : outcome unit * S :=
  match ownedCRDs with
  | [] => (Ok (), s)
  | u :: ownedCRDs' =>
      match crdFromUnstructured (Object u) with
      | Err e => (Err e, s)
      | Panic p => (Panic p, s)
      | Ok crdDescription =>
          loopCRDDescritions ownedCRDs' fn (fn crdDescription s)
      end
  end.

(** The closure [SelectCRDByGVK] passes to the loop. *)
Definition selectFn (gvk : schema.GroupVersionKind)
    (crd : olmv1alpha1.CRDDescription)
    (crdDescriptions : list olmv1alpha1.CRDDescription)
    : list olmv1alpha1.CRDDescription :=
  if negb (EqualFold (ToLower (olmv1alpha1.Kind crd))
                     (ToLower (schema.Kind gvk)))
  then crdDescriptions
  else if negb (String.eqb (olmv1alpha1.Version crd) "")
          && negb (String.eqb (ToLower (schema.Version gvk))
                              (ToLower (olmv1alpha1.Version crd)))
  then crdDescriptions
  else crdDescriptions ++ [crd].

Definition SelectCRDByGVK (o : OLM) (gvk : schema.GroupVersionKind)
    : outcome (option olmv1alpha1.CRDDescription) :=
  ownedCRDs ← ListCSVOwnedCRDs o;
  match loopCRDDescritions ownedCRDs (selectFn gvk) [] with
  | (Err e, _) => Err e
  | (Panic p, _) => Panic p
  | (Ok _, crdDescriptions) =>
      match crdDescriptions with
      | [] => Ok None
      | crd :: _ => Ok (Some crd)
      end
  end.

(** The closure [extractGVKs] passes to the loop. *)
Definition gvkFn (crd : olmv1alpha1.CRDDescription)
    (gvks : list schema.GroupVersionKind) : list schema.GroupVersionKind :=
  let (_, gv) := schema.ParseResourceArg (olmv1alpha1.Name crd) in
  gvks ++ [{| schema.Group := schema.grGroup gv;
              schema.Version := olmv1alpha1.Version crd;
              schema.Kind := olmv1alpha1.Kind crd |}].

Definition extractGVKs (crdDescriptions : list Unstructured)
    : outcome (list schema.GroupVersionKind) :=
  match loopCRDDescritions crdDescriptions gvkFn [] with
  | (Err e, _) => Err e
  | (Panic p, _) => Panic p
  | (Ok _, gvks) => Ok gvks
  end.

Definition ListCSVOwnedCRDsAsGVKs (o : OLM)
    : outcome (list schema.GroupVersionKind) :=
  csvs ← listCSVs o;
  extractGVKs csvs.

Definition ListGVKsFromCSVNamespacedName (o : OLM)
    (namespacedName : types.NamespacedName)
    : outcome (list schema.GroupVersionKind) :=
  let gvr := olmv1alpha1.SchemeGroupVersionWithResource csvResource in
  u ← dynamic.Get (olmClient o) gvr (types.Namespace namespacedName)
        (types.Name namespacedName);
  let csvs := [u] in
  extractGVKs csvs.

Definition NewOLM (client : dynamic.Interface) (ns : string) : OLM :=
  {| olmClient := client; ns := ns |}.

End olm.

(** ** Entries of an [envFrom] list *)

Definition hasSecretRef (env : corev1.EnvFromSource) : Prop :=
  is_Some (corev1.SecretRef env).

Definition namesSecret (secret : string) (env : corev1.EnvFromSource) : Prop :=
  ∃ ref, corev1.SecretRef env = Some ref
         ∧ corev1.Name (corev1.secretReference ref) = secret.

(** An entry with a secret reference of another name. *)
Definition otherSecret (secret : string) (env : corev1.EnvFromSource) : Prop :=
  hasSecretRef env ∧ ¬ namesSecret secret env.

(** The secret names an [envFrom] list carries. *)
Definition secretNames (envList : list corev1.EnvFromSource) : list string :=
  omap (λ env, (λ ref, corev1.Name (corev1.secretReference ref))
               <$> corev1.SecretRef env) envList.

(** ** What the statements below speak of *)

Section notions.
Context `{GoStrings} `{UnstructuredConverter}.

(** [bound] is [container] after the binding with [secret]: converted,
    given an [envFrom] list by [appendEnvFrom], and converted back. *)
Definition boundWith (secret : string) (container bound : value) : Prop :=
  ∃ u c envFrom u',
    container = VMap u
    ∧ containerFromUnstructured u = Ok c
    ∧ appendEnvFrom (corev1.EnvFrom c) secret = Ok envFrom
    ∧ containerToUnstructured
        {| corev1.EnvFrom := envFrom;
           corev1.OtherFields := corev1.OtherFields c |} = Ok u'
    ∧ bound = VMap u'.

(** The descriptors a packaging object owns: the maps of the list at
    [ownedPath], and none when the path is absent. *)
Definition ownedBy (csv : Unstructured) (owned : list (gmap string value))
    : Prop :=
  NestedSlice (Object csv) ownedPath = Found (VMap <$> owned)
  ∨ (NestedSlice (Object csv) ownedPath = NotFound ∧ owned = []).

(** Equality of kinds without regard to case, as the selector tests it. *)
Definition kindMatches (gvk : schema.GroupVersionKind)
    (crd : olmv1alpha1.CRDDescription) : Prop :=
  EqualFold (ToLower (olmv1alpha1.Kind crd)) (ToLower (schema.Kind gvk))
  = true.

(** A declared version is the requested one without regard to case. *)
Definition versionMatches (gvk : schema.GroupVersionKind)
    (crd : olmv1alpha1.CRDDescription) : Prop :=
  olmv1alpha1.Version crd ≠ "" →
  ToLower (schema.Version gvk) = ToLower (olmv1alpha1.Version crd).

Definition matchesGVK (gvk : schema.GroupVersionKind)
    (crd : olmv1alpha1.CRDDescription) : Prop :=
  kindMatches gvk crd ∧ versionMatches gvk crd.

#[global] Instance matchesGVK_dec gvk crd : Decision (matchesGVK gvk crd).
Proof. unfold matchesGVK, kindMatches, versionMatches. apply _. Defined.

(** [crd] is the first entry of [crds] that matches [gvk]. *)
Definition firstMatch (gvk : schema.GroupVersionKind)
    (crds : list olmv1alpha1.CRDDescription)
    (crd : olmv1alpha1.CRDDescription) : Prop :=
  ∃ before after,
    crds = before ++ crd :: after
    ∧ matchesGVK gvk crd
    ∧ Forall (λ c, ¬ matchesGVK gvk c) before.

(** The descriptor [extractGVKs] makes of an owned entry. *)
Definition gvkOf (crd : olmv1alpha1.CRDDescription)
    : schema.GroupVersionKind :=
  {| schema.Group := schema.grGroup (schema.ParseResourceArg
                                       (olmv1alpha1.Name crd)).2;
     schema.Version := olmv1alpha1.Version crd;
     schema.Kind := olmv1alpha1.Kind crd |}.

(** Section 4.5 of the specification, in its words: fetch the one
    packaging object, extract its owned descriptors, map each of them. *)
Definition listGVKsForPackagingObject_spec (o : OLM)
    (namespacedName : types.NamespacedName)
    : outcome (list schema.GroupVersionKind) :=
  let gvr := olmv1alpha1.SchemeGroupVersionWithResource csvResource in
  u ← dynamic.Get (olmClient o) gvr (types.Namespace namespacedName)
        (types.Name namespacedName);
  ownedCRDs ← extractOwnedCRDs [u];
  extractGVKs ownedCRDs.

End notions.

(** ** What the further statements speak of *)

Section further_notions.
Context `{UnstructuredConverter}.

(** The converter reads back what it wrote for a container bound with
    [secret]: the container of a conversion, given the [envFrom] list of
    [appendEnvFrom] and converted back, converts to itself. *)
Definition readsBack (secret : string) : Prop :=
  ∀ u c envFrom u',
    containerFromUnstructured u = Ok c →
    appendEnvFrom (corev1.EnvFrom c) secret = Ok envFrom →
    containerToUnstructured
      {| corev1.EnvFrom := envFrom;
         corev1.OtherFields := corev1.OtherFields c |} = Ok u' →
    containerFromUnstructured u'
    = Ok {| corev1.EnvFrom := envFrom;
            corev1.OtherFields := corev1.OtherFields c |}.

End further_notions.

Section store_notions.
Context {Cluster : Type}.

(** The store after the calls of [Update] for [objs] in order, when every
    one of them returns nil. *)
Fixpoint applyUpdates (c : ctrlclient.Client Cluster)
    (objs : list Unstructured) (store : Cluster) : option Cluster :=
  match objs with
  | [] => Some store
  | obj :: objs' =>
      match ctrlclient.Update c obj store with
      | (None, store') => applyUpdates c objs' store'
      | (Some _, _) => None
      end
  end.

End store_notions.

(** ** An implementation of the interfaces, to run the code on objects

    ASCII letters for package strings, a converter that reads the fields
    the code works on, and stores held in lists. *)

Module sample.

Definition lowerAscii (c : ascii) : ascii :=
  let n := nat_of_ascii c in
  if (65 <=? n)%nat && (n <=? 90)%nat then ascii_of_nat (n + 32) else c.

Fixpoint asciiToLower (s : string) : string :=
  match s with
  | EmptyString => EmptyString
  | String c s' => String (lowerAscii c) (asciiToLower s')
  end.

Definition asciiStrings : GoStrings :=
  {| ToLower := asciiToLower;
     EqualFold := λ s t, String.eqb (asciiToLower s) (asciiToLower t) |}.

Definition stringField (m : gmap string value) (key : string)
    : outcome string :=
  match m !! key with
  | None | Some VNil => Ok ""
  | Some (VString s) => Ok s
  | Some _ => Err (ErrExternal "cannot convert to string")
  end.

Definition secretRefField (m : gmap string value)
    : outcome (option corev1.SecretEnvSource) :=
  match m !! "secretRef" with
  | None | Some VNil => Ok None
  | Some (VMap r) =>
      name ← stringField r "name";
      Ok (Some {| corev1.secretReference := {| corev1.Name := name |};
                  corev1.secretOptional := None |})
  | Some _ => Err (ErrExternal "cannot convert to struct")
  end.

Definition configMapRefField (m : gmap string value)
    : outcome (option corev1.ConfigMapEnvSource) :=
  match m !! "configMapRef" with
  | None | Some VNil => Ok None
  | Some (VMap r) =>
      name ← stringField r "name";
      Ok (Some {| corev1.configMapReference := {| corev1.Name := name |};
                  corev1.configMapOptional := None |})
  | Some _ => Err (ErrExternal "cannot convert to struct")
  end.

Definition envFromOfValue (v : value) : outcome corev1.EnvFromSource :=
  match v with
  | VMap m =>
      prefix ← stringField m "prefix";
      configMapRef ← configMapRefField m;
      secretRef ← secretRefField m;
      Ok {| corev1.Prefix := prefix;
            corev1.ConfigMapRef := configMapRef;
            corev1.SecretRef := secretRef |}
  | _ => Err (ErrExternal "cannot convert to struct")
  end.

Definition valueOfEnvFrom (env : corev1.EnvFromSource) : value :=
  let named (name : string) : value :=
    VMap {[ "name" := VString name ]} in
  let m0 : gmap string value :=
    if String.eqb (corev1.Prefix env) "" then ∅
    else {[ "prefix" := VString (corev1.Prefix env) ]} in
  let m1 :=
    match corev1.ConfigMapRef env with
    | Some r =>
        <["configMapRef" :=
            named (corev1.Name (corev1.configMapReference r))]> m0
    | None => m0
    end in
  VMap match corev1.SecretRef env with
       | Some r =>
           <["secretRef" :=
               named (corev1.Name (corev1.secretReference r))]> m1
       | None => m1
       end.

Definition containerFrom (m : gmap string value)
    : outcome corev1.Container :=
  envFrom ← match m !! "envFrom" with
            | None | Some VNil => Ok []
            | Some (VSlice l) => mapM envFromOfValue l
            | Some _ => Err (ErrExternal "cannot convert to slice")
            end;
  Ok {| corev1.EnvFrom := envFrom;
        corev1.OtherFields := delete "envFrom" m |}.

Definition containerTo (c : corev1.Container)
    : outcome (gmap string value) :=
  Ok match corev1.EnvFrom c with
     | [] => corev1.OtherFields c
     | l => <["envFrom" := VSlice (valueOfEnvFrom <$> l)]>
              (corev1.OtherFields c)
     end.

Definition crdFrom (m : gmap string value)
    : outcome olmv1alpha1.CRDDescription :=
  name ← stringField m "name";
  version ← stringField m "version";
  kind ← stringField m "kind";
  displayName ← stringField m "displayName";
  description ← stringField m "description";
  Ok {| olmv1alpha1.Name := name;
        olmv1alpha1.Version := version;
        olmv1alpha1.Kind := kind;
        olmv1alpha1.DisplayName := displayName;
        olmv1alpha1.Description := description;
        olmv1alpha1.Descriptors :=
          filter (λ kv, kv.1 ∈ ["resources"; "statusDescriptors";
                                "specDescriptors"; "actionDescriptors"]) m |}.

Definition converter : UnstructuredConverter :=
  {| containerFromUnstructured := containerFrom;
     containerToUnstructured := containerTo;
     crdFromUnstructured := crdFrom |}.

(** A store that holds objects in a list; [Update] replaces the object of
    the same name and fails when there is none. *)
Fixpoint replaceNamed (obj : Unstructured) (objs : list Unstructured)
    : option (list Unstructured) :=
  match objs with
  | [] => None
  | o :: objs' =>
      if String.eqb (GetName o) (GetName obj) then Some (obj :: objs')
      else cons o <$> replaceNamed obj objs'
  end.

Definition listClient : ctrlclient.Client (list Unstructured) :=
  {| ctrlclient.List := λ _ _ objs, Ok objs;
     ctrlclient.Update := λ obj objs,
       match replaceNamed obj objs with
       | Some objs' => (None, objs')
       | None => (Some (ErrExternal "not found"), objs)
       end |}.

Definition csvClient (csvs : list Unstructured) : dynamic.Interface :=
  {| dynamic.List := λ _ _, Ok csvs;
     dynamic.Get := λ _ _ name,
       match list_find (λ u, GetName u = name) csvs with
       | Some (_, u) => Ok u
       | None => Err (ErrExternal "not found")
       end |}.

Definition named (name kind : string) (spec : gmap string value)
    : Unstructured :=
  {| Object := {[ "kind" := VString kind;
                  "metadata" := VMap {[ "name" := VString name ]};
                  "spec" := VMap spec ]} |}.

(** A deployment with one container, given with its [envFrom] list. *)
Definition deployment (name : string) (envFrom : list value)
    : Unstructured :=
  named name "Deployment"
    {[ "template" := VMap {[ "spec" := VMap {[ "containers" :=
         VSlice [VMap {[ "name" := VString "app";
                         "envFrom" := VSlice envFrom ]}] ]} ]} ]}.

(** An object of the same kind without a pod template. *)
Definition bare (name : string) : Unstructured :=
  named name "Deployment" {[ "replicas" := VInt 1 ]}.

Definition request (name kind : string) : v1alpha1.ServiceBindingRequest :=
  {| v1alpha1.Name := name;
     v1alpha1.Namespace := "binder";
     v1alpha1.SpecApplicationSelector :=
       {| v1alpha1.ResourceKind := kind;
          v1alpha1.MatchLabels := {[ "connects-to" := "database" ]} |};
     v1alpha1.SpecBackingSelector :=
       {| v1alpha1.ResourceName := "databases.postgresql.baiju.dev";
          v1alpha1.ResourceVersion := "v1alpha1" |} |}.

Definition binder (name kind : string) : Binder (list Unstructured) :=
  {| client := listClient; sbr := request name kind |}.

Definition world (objs : list Unstructured) : World (list Unstructured) :=
  {| cluster := objs; issued := [] |}.

Definition ownedCRD (name version kind : string) : value :=
  VMap {[ "name" := VString name;
          "version" := VString version;
          "kind" := VString kind ]}.

(** A cluster service version, given with its owned descriptors. *)
Definition csv (name : string) (owned : list value) : Unstructured :=
  named name "ClusterServiceVersion"
    {[ "customresourcedefinitions" := VMap {[ "owned" := VSlice owned ]} ]}.

Definition configMapOnly (name : string) : corev1.EnvFromSource :=
  {| corev1.Prefix := "";
     corev1.ConfigMapRef :=
       Some {| corev1.configMapReference := {| corev1.Name := name |};
               corev1.configMapOptional := None |};
     corev1.SecretRef := None |}.

(** The objects of the runs below. *)
Definition deploymentList (items : list Unstructured) : UnstructuredList :=
  {| ListGVK := {| schema.Group := "apps"; schema.Version := "v1";
                   schema.Kind := "DeploymentList" |};
     Items := items |}.

Definition bound (name secret : string) : Unstructured :=
  deployment name [valueOfEnvFrom (secretEnvFrom secret)].

Definition database (version kind : string) : olmv1alpha1.CRDDescription :=
  {| olmv1alpha1.Name := "databases.postgresql.baiju.dev";
     olmv1alpha1.Version := version;
     olmv1alpha1.Kind := kind;
     olmv1alpha1.DisplayName := "";
     olmv1alpha1.Description := "";
     olmv1alpha1.Descriptors := ∅ |}.

Definition postgresql : Unstructured :=
  csv "postgresql-operator.v0.1.0"
    [ownedCRD "databases.postgresql.baiju.dev" "v1alpha1" "Database"].

Definition postgresqlName : types.NamespacedName :=
  {| types.Namespace := "binder";
     types.Name := "postgresql-operator.v0.1.0" |}.

(** Two packaging objects, the first without owned descriptors. *)
Definition catalog : list Unstructured :=
  [named "etcd-operator.v0.9.4" "ClusterServiceVersion" ∅;
   csv "postgresql-operator.v0.1.0"
     [ownedCRD "databases.postgresql.baiju.dev" "v2" "Database";
      ownedCRD "databases.postgresql.baiju.dev" "v1alpha1" "database";
      ownedCRD "databases.postgresql.baiju.dev" "" "DATABASE"]].

Definition requested (group : string) : schema.GroupVersionKind :=
  {| schema.Group := group;
     schema.Version := "V1alpha1";
     schema.Kind := "Database" |}.

End sample.

(** ** More objects to run the code on *)

Module fixtures.

(** The one container of [sample.deployment], given with its [envFrom]
    list. *)
Definition container (envFrom : list value) : gmap string value :=
  {[ "name" := VString "app"; "envFrom" := VSlice envFrom ]}.

(** A deployment whose container reads a config map. *)
Definition configured (name : string) : Unstructured :=
  sample.deployment name
    [sample.valueOfEnvFrom (sample.configMapOnly "settings")].

(** A deployment whose container list holds a string. *)
Definition malformed (name : string) : Unstructured :=
  sample.named name "Deployment"
    {[ "template" := VMap {[ "spec" := VMap {[ "containers" :=
         VSlice [VString "app"] ]} ]} ]}.

Definition etcd : Unstructured :=
  sample.named "etcd-operator.v0.9.4" "ClusterServiceVersion" ∅.

Definition databaseEntry (version kind : string) : gmap string value :=
  {[ "name" := VString "databases.postgresql.baiju.dev";
     "version" := VString version;
     "kind" := VString kind ]}.

(** An owned entry whose kind is a number. *)
Definition numbered : gmap string value :=
  {[ "name" := VString "queues.example.dev"; "kind" := VInt 1 ]}.

(** What the converter makes of a cluster service version itself. *)
Definition csvItself : olmv1alpha1.CRDDescription :=
  {| olmv1alpha1.Name := "";
     olmv1alpha1.Version := "";
     olmv1alpha1.Kind := "ClusterServiceVersion";
     olmv1alpha1.DisplayName := "";
     olmv1alpha1.Description := "";
     olmv1alpha1.Descriptors := ∅ |}.

End fixtures.

(** * Properties *)

(** ** The scan of [appendEnvFrom] *)

Lemma secretEnvFrom_names secret : namesSecret secret (secretEnvFrom secret).
Proof. eexists. split; reflexivity. Qed.

Lemma scan_step_eq envList env ref rest secret :
  corev1.SecretRef env = Some ref →
  corev1.Name (corev1.secretReference ref) = secret →
  appendEnvFromScan envList (env :: rest) secret = Ok envList.
Proof.
  intros Href Hname. simpl. rewrite Href.
  apply String.eqb_eq in Hname. by rewrite Hname.
Qed.

Lemma scan_step_ne envList env ref rest secret :
  corev1.SecretRef env = Some ref →
  corev1.Name (corev1.secretReference ref) ≠ secret →
  appendEnvFromScan envList (env :: rest) secret
  = appendEnvFromScan envList rest secret.
Proof.
  intros Href Hname. simpl. rewrite Href.
  apply String.eqb_neq in Hname. by rewrite Hname.
Qed.

Lemma scan_step_nil envList env rest secret :
  corev1.SecretRef env = None →
  appendEnvFromScan envList (env :: rest) secret = Panic NilDereference.
Proof. intros Href. simpl. by rewrite Href. Qed.

Lemma scan_total envList rest secret :
  Forall hasSecretRef rest →
  ∃ l, appendEnvFromScan envList rest secret = Ok l.
Proof.
  induction 1 as [|env rest [ref Href] _ IH]; [by eexists|].
  destruct (decide (corev1.Name (corev1.secretReference ref) = secret)).
  - exists envList. by eapply scan_step_eq.
  - destruct IH as [l IH]. exists l. by erewrite scan_step_ne.
Qed.

Lemma scan_Ok envList rest secret l :
  appendEnvFromScan envList rest secret = Ok l →
  (l = envList ∧ Exists (namesSecret secret) rest)
  ∨ (l = envList ++ [secretEnvFrom secret]
     ∧ Forall (otherSecret secret) rest).
Proof.
  induction rest as [|env rest IH]; simpl.
  - intros [= <-]. right. by split.
  - destruct (corev1.SecretRef env) as [ref|] eqn:Href; [|done].
    destruct (String.eqb_spec (corev1.Name (corev1.secretReference ref)) secret)
      as [Heq|Hne].
    + intros [= <-]. left. split; [done|]. left. by exists ref.
    + intros Hscan. destruct (IH Hscan) as [[-> Hex]|[-> Hall]].
      * left. split; [done|]. by right.
      * right. split; [done|]. constructor; [|done].
        split; [by exists ref|]. intros (ref' & Href' & Hname). congruence.
Qed.

Lemma scan_hit envList pre env post secret :
  Forall hasSecretRef pre → namesSecret secret env →
  appendEnvFromScan envList (pre ++ env :: post) secret = Ok envList.
Proof.
  intros Hpre (ref & Href & Hname).
  induction Hpre as [|env' pre [ref' Href'] _ IH]; simpl app.
  - by eapply scan_step_eq.
  - destruct (decide (corev1.Name (corev1.secretReference ref') = secret)).
    + by eapply scan_step_eq.
    + by erewrite scan_step_ne.
Qed.

Lemma otherSecret_hasSecretRef secret l :
  Forall (otherSecret secret) l → Forall hasSecretRef l.
Proof. intros Hall. eapply Forall_impl; [done|]. by intros env [? _]. Qed.

Lemma scan_Panic envList rest secret p :
  appendEnvFromScan envList rest secret = Panic p →
  p = NilDereference ∧ Exists (λ env, corev1.SecretRef env = None) rest.
Proof.
  induction rest as [|env rest IH]; simpl; [done|].
  destruct (corev1.SecretRef env) as [ref|] eqn:Href.
  - destruct (String.eqb _ _); [done|].
    intros Hscan. destruct (IH Hscan). split; [done|]. by right.
  - intros [= <-]. split; [done|]. by left.
Qed.

Lemma scan_not_Err envList rest secret e :
  appendEnvFromScan envList rest secret ≠ Err e.
Proof.
  induction rest as [|env rest IH]; simpl; [done|].
  destruct (corev1.SecretRef env); [|done].
  by destruct (String.eqb _ _).
Qed.

(** With a name no entry carries, the scan stops at the first entry
    without a secret reference. *)
Lemma scan_unnamed_nil envList rest secret :
  Forall (λ env, ¬ namesSecret secret env) rest →
  Exists (λ env, corev1.SecretRef env = None) rest →
  appendEnvFromScan envList rest secret = Panic NilDereference.
Proof.
  induction 1 as [|env rest Hname _ IH]; intros Hex; [by inversion Hex|].
  destruct (corev1.SecretRef env) as [ref|] eqn:Href.
  - assert (corev1.Name (corev1.secretReference ref) ≠ secret) as Hne
      by (intros Heq; apply Hname; by exists ref).
    rewrite (scan_step_ne envList env ref rest secret Href Hne).
    apply IH. inversion Hex as [? ? Hnil|]; simplify_eq. done.
  - by apply scan_step_nil.
Qed.

Lemma secretNames_fresh envList :
  Forall (λ env, ¬ namesSecret (fresh (secretNames envList)) env) envList.
Proof.
  apply Forall_forall. intros env Hin (ref & Href & Hname).
  apply (infinite_is_fresh (secretNames envList)).
  unfold secretNames at 2. apply list_elem_of_omap.
  exists env. split; [done|]. rewrite Href. simpl. by rewrite Hname.
Qed.

(** ** [appendEnvFrom] *)

(** Where it returns, [appendEnvFrom] is idempotent.  On a list whose
    entries carry a secret reference the call returns a list [once];
    whenever a call returns [once], a second call with the same secret name
    returns a list [twice] that is [once] itself, of the same length; and
    when an entry of the input already carries the name, the input is
    returned as it is. *)
Theorem appendEnvFrom_idempotent
    (envList : list corev1.EnvFromSource) (secret : string) :
  (Forall hasSecretRef envList →
   ∃ once, appendEnvFrom envList secret = Ok once)
  ∧ (∀ once, appendEnvFrom envList secret = Ok once →
       (∃ twice, appendEnvFrom once secret = Ok twice
                 ∧ twice = once ∧ length twice = length once)
       ∧ (Exists (namesSecret secret) envList → once = envList)).
Proof.
  split; [apply scan_total|].
  intros once Honce. pose proof Honce as Hcases.
  apply scan_Ok in Hcases as [[-> Hex]|[-> Hall]].
  - split; [by exists envList|done].
  - split.
    + eexists. split; [|done]. unfold appendEnvFrom.
      apply scan_hit; [by eapply otherSecret_hasSecretRef|].
      apply secretEnvFrom_names.
    + intros Hex. exfalso. apply Exists_exists in Hex as (env & Hin & Hname).
      rewrite Forall_forall in Hall. by destruct (Hall env Hin).
Qed.

Lemma appendEnvFrom_idempotent_witness :
  ∃ once, appendEnvFrom [secretEnvFrom "cache"] "db" = Ok once
          ∧ appendEnvFrom once "db" = Ok once
          ∧ length once = 2.
Proof.
  destruct (appendEnvFrom_idempotent [secretEnvFrom "cache"] "db")
    as [Htotal Hidem].
  destruct Htotal as [once Honce].
  { repeat constructor. by eexists. }
  exists once. destruct (Hidem once Honce) as [(twice & Htwice & -> & _) _].
  split; [done|]. split; [done|].
  vm_compute in Honce. by injection Honce as <-.
Defined.

(** C7: [appendEnvFrom] keeps the entries it is given.  On a list whose
    entries carry a secret reference the call returns; and every list it
    returns starts with the input entries in their order, and is either the
    input or the input with the new entry as its last element. *)
Theorem appendEnvFrom_keeps_order
    (envList : list corev1.EnvFromSource) (secret : string) :
  (Forall hasSecretRef envList →
   ∃ l, appendEnvFrom envList secret = Ok l)
  ∧ (∀ l, appendEnvFrom envList secret = Ok l →
       take (length envList) l = envList
       ∧ (∀ i env, envList !! i = Some env → l !! i = Some env)
       ∧ (l = envList
          ∨ (l = envList ++ [secretEnvFrom secret]
             ∧ last l = Some (secretEnvFrom secret)))).
Proof.
  split; [apply scan_total|].
  intros l Hl. apply scan_Ok in Hl as [[-> _]|[-> _]].
  - split; [by rewrite firstn_all|]. split; [done|]. by left.
  - split; [by rewrite take_app_length|].
    split; [intros i env Hi; by apply lookup_app_l_Some|].
    right. split; [done|]. by rewrite last_snoc.
Qed.

Lemma appendEnvFrom_keeps_order_witness :
  ∃ l, appendEnvFrom [secretEnvFrom "cache"; secretEnvFrom "queue"] "db" = Ok l
       ∧ l !! 0 = Some (secretEnvFrom "cache")
       ∧ l !! 1 = Some (secretEnvFrom "queue").
Proof.
  destruct (appendEnvFrom_keeps_order
              [secretEnvFrom "cache"; secretEnvFrom "queue"] "db")
    as [Htotal Hkeeps].
  destruct Htotal as [l Hl].
  { repeat constructor; by eexists. }
  exists l. destruct (Hkeeps l Hl) as (_ & Hlookup & _).
  split; [done|]. split; by apply Hlookup.
Defined.

(** C9: the scan reads [SecretRef.Name] of every entry it inspects without
    a nil check.  A call panics only by that dereference, at an entry
    without a secret reference; the call returns for every secret name
    exactly when every entry carries a secret reference; and a list with a
    config-map-only entry makes it panic. *)
Theorem appendEnvFrom_nil_dereference
    (envList : list corev1.EnvFromSource) :
  (∀ secret p, appendEnvFrom envList secret = Panic p →
     p = NilDereference
     ∧ Exists (λ env, corev1.SecretRef env = None) envList)
  ∧ (∀ secret e, appendEnvFrom envList secret ≠ Err e)
  ∧ ((∀ secret, ∃ l, appendEnvFrom envList secret = Ok l)
     ↔ Forall hasSecretRef envList)
  ∧ (∀ secret, appendEnvFrom (sample.configMapOnly "settings" :: envList) secret
               = Panic NilDereference).
Proof.
  split; [intros secret p; apply scan_Panic|].
  split; [intros secret e; apply scan_not_Err|].
  split; [|done].
  split; [|intros Hall secret; by apply scan_total].
  intros Htotal.
  destruct (decide (Forall hasSecretRef envList)) as [|Hnot]; [done|].
  exfalso. apply not_Forall_Exists in Hnot; [|apply _].
  destruct (Htotal (fresh (secretNames envList))) as [l Hl].
  unfold appendEnvFrom in Hl.
  rewrite scan_unnamed_nil in Hl; [done|apply secretNames_fresh|].
  eapply Exists_impl; [done|]. intros env Hnone. simpl in Hnone.
  unfold hasSecretRef in Hnone.
  destruct (corev1.SecretRef env); [|done]. by destruct Hnone.
Qed.

Lemma appendEnvFrom_nil_dereference_witness :
  (∃ l, appendEnvFrom [secretEnvFrom "cache"] "db" = Ok l)
  ∧ appendEnvFrom [sample.configMapOnly "settings"; secretEnvFrom "db"] "db"
    = Panic NilDereference.
Proof.
  split.
  - destruct (appendEnvFrom_nil_dereference [secretEnvFrom "cache"])
      as (_ & _ & [_ Htotal] & _).
    apply Htotal. repeat constructor. by eexists.
  - apply (appendEnvFrom_nil_dereference [secretEnvFrom "db"]).
Defined.

(** ** [getListGVK] *)

Section resolver.
Context `{GoStrings} {Cluster : Type}.

(** C6: [getListGVK] lower-cases the resource kind and looks it up in a
    table of two rows: "deployment" gives apps/v1/DeploymentList,
    "deploymentconfig" gives apps.openshift.io/v1/DeploymentConfigList,
    and every other string is an unsupported-kind error carrying the
    lower-cased kind.  No call panics and no other descriptor is
    returned. *)
Theorem getListGVK_table (b : Binder Cluster) :
  let kind :=
    ToLower (v1alpha1.ResourceKind
               (v1alpha1.SpecApplicationSelector (sbr b))) in
  getListGVK b
  = (if decide (kind = "deployment") then
       Ok {| schema.Group := "apps"; schema.Version := "v1";
             schema.Kind := "DeploymentList" |}
     else if decide (kind = "deploymentconfig") then
       Ok {| schema.Group := "apps.openshift.io"; schema.Version := "v1";
             schema.Kind := "DeploymentConfigList" |}
     else Err (ErrUnsupportedKind kind))
  ∧ match getListGVK b with
    | Ok gvk =>
        (kind = "deployment"
         ∧ gvk = {| schema.Group := "apps"; schema.Version := "v1";
                    schema.Kind := "DeploymentList" |})
        ∨ (kind = "deploymentconfig"
           ∧ gvk = {| schema.Group := "apps.openshift.io";
                      schema.Version := "v1";
                      schema.Kind := "DeploymentConfigList" |})
    | Err e =>
        e = ErrUnsupportedKind kind
        ∧ kind ≠ "deployment" ∧ kind ≠ "deploymentconfig"
    | Panic _ => False
    end.
Proof.
  intros kind. unfold getListGVK, getResourceKind. fold kind.
  destruct (String.eqb_spec kind "deploymentconfig") as [Hdc|Hdc].
  - rewrite Hdc. repeat case_decide; try done. split; [done|]. by right.
  - destruct (String.eqb_spec kind "deployment") as [Hd|Hd].
    + rewrite Hd. repeat case_decide; try done. split; [done|]. by left.
    + repeat case_decide; done.
Qed.

End resolver.

(** ** [update] and [Bind] *)

(** Case analysis on the next stage of a chain of calls: the chain goes on
    when the stage returns, and stops with its error or panic. *)
Ltac stage :=
  match goal with
  | |- context [mbind _ ?m] => destruct m eqn:?; simpl; [|done..]
  end.

Section update_properties.
Context `{GoStrings} `{UnstructuredConverter} {Cluster : Type}.
Implicit Types (b : Binder Cluster) (w : World Cluster).
Implicit Types (obj : Unstructured) (items : list Unstructured).

Lemma updateItems_app b pre rest w :
  updateItems b (pre ++ rest) w
  = match updateItems b pre w with
    | (Ok _, w1) => updateItems b rest w1
    | failure => failure
    end.
Proof.
  revert w. induction pre as [|obj pre IH]; intros w; simpl; [done|].
  destruct (bindObject b obj) as [obj'| |]; [|done..].
  destruct (clientUpdate b obj' w) as [[e|] w']; [done|]. apply IH.
Qed.

Lemma updateItems_Ok b items w w1 :
  updateItems b items w = (Ok (), w1) →
  ∃ done, issued w1 = issued w ++ done
          ∧ Forall2 (λ obj obj', bindObject b obj = Ok obj') items done.
Proof.
  revert w. induction items as [|obj items IH]; intros w; simpl.
  - intros [= <-]. exists []. by rewrite app_nil_r.
  - destruct (bindObject b obj) as [obj'| |] eqn:Hobj; [|done..].
    unfold clientUpdate.
    destruct (ctrlclient.Update (client b) obj' (cluster w)) as [[e|] c'];
      [done|].
    intros Hrest. apply IH in Hrest as (done & Hissued & Hdone).
    exists (obj' :: done). simpl in Hissued.
    split; [by rewrite Hissued, <-app_assoc|]. by constructor.
Qed.

(** Whatever the result, the calls of [Update] are those for a prefix of
    the items, in order, and nothing issued before is taken back. *)
Lemma updateItems_issued b items w r w' :
  updateItems b items w = (r, w') →
  ∃ done, issued w' = issued w ++ done
          ∧ Forall2 (λ obj obj', bindObject b obj = Ok obj')
              (take (length done) items) done.
Proof.
  revert w. induction items as [|obj items IH]; intros w; simpl.
  - intros [= <- <-]. exists []. by rewrite app_nil_r.
  - destruct (bindObject b obj) as [obj'| |] eqn:Hobj;
      [| intros [= <- <-]; exists []; by rewrite app_nil_r ..].
    unfold clientUpdate.
    destruct (ctrlclient.Update (client b) obj' (cluster w)) as [[e|] c'].
    + intros [= <- <-]. exists [obj']. simpl. split; [done|].
      rewrite take_0. by repeat constructor.
    + intros Hrest. apply IH in Hrest as (done & Hissued & Hdone).
      exists (obj' :: done). simpl in *.
      split; [by rewrite Hissued, <-app_assoc|]. by constructor.
Qed.

Lemma bindContainers_Ok b containers bound :
  bindContainers b containers = Ok bound →
  Forall2 (boundWith (v1alpha1.GetName (sbr b))) containers bound.
Proof.
  revert bound. induction containers as [|container containers IH];
    intros bound; simpl.
  - intros [= <-]. constructor.
  - destruct container as [| | | | |u]; try done.
    do 4 stage. intros [= <-]. constructor; [|by apply IH].
    by eexists u, _, _, _.
Qed.

Lemma bindContainers_app_Err b before container after bound e :
  bindContainers b before = Ok bound →
  bindContainers b [container] = Err e →
  bindContainers b (before ++ container :: after) = Err e.
Proof.
  revert bound. induction before as [|c0 before IH]; intros bound; simpl.
  - intros _. destruct container as [| | | | |u]; try done.
    by do 3 stage.
  - destruct c0 as [| | | | |u]; try done.
    do 4 stage. intros _ Herr. by erewrite IH.
Qed.

Lemma bindObject_Ok b obj obj' :
  bindObject b obj = Ok obj' →
  ∃ containers bound,
    NestedSlice (Object obj) nestedPath = Found containers
    ∧ Forall2 (boundWith (v1alpha1.GetName (sbr b))) containers bound
    ∧ SetNestedSlice (Object obj) bound nestedPath = Ok (Object obj').
Proof.
  unfold bindObject.
  destruct (NestedSlice _ _) as [containers| |]; [|done..].
  destruct (bindContainers b containers) as [bound| |] eqn:Hbound;
    [|done..]. simpl.
  destruct (SetNestedSlice _ _ _) as [object| |] eqn:Hset; [|done..].
  simpl. intros [= <-]. exists containers, bound.
  split; [done|]. split; [by apply bindContainers_Ok|done].
Qed.

Lemma bindContainers_name b b' containers :
  v1alpha1.GetName (sbr b') = v1alpha1.GetName (sbr b) →
  bindContainers b' containers = bindContainers b containers.
Proof.
  intros Hname. induction containers as [|container containers IH];
    simpl; [done|].
  by rewrite Hname, IH.
Qed.

Lemma updateItems_name b b' items w :
  client b' = client b →
  v1alpha1.GetName (sbr b') = v1alpha1.GetName (sbr b) →
  updateItems b' items w = updateItems b items w.
Proof.
  intros Hclient Hname. revert w.
  induction items as [|obj items IH]; intros w; simpl; [done|].
  assert (bindObject b' obj = bindObject b obj) as ->.
  { unfold bindObject. destruct (NestedSlice _ _); [|done..].
    by rewrite (bindContainers_name b b' _ Hname). }
  destruct (bindObject b obj) as [obj'| |]; [|done..].
  unfold clientUpdate. rewrite Hclient.
  destruct (ctrlclient.Update _ _ _) as [[e|] c']; [done|]. apply IH.
Qed.

(** C4: when [update] reaches an object without the nested path
    spec.template.spec.containers, it returns the error that names the
    path and the kind of the object; the store is left as the objects
    before it left it, and the only calls of [Update] are those for the
    objects before it. *)
Theorem update_missing_path b objList pre obj post w w1 :
  Items objList = pre ++ obj :: post →
  updateItems b pre w = (Ok (), w1) →
  NestedSlice (Object obj) nestedPath = NotFound →
  update b objList w
  = (Err (ErrNestedPathNotFound ["spec"; "template"; "spec"; "containers"]
            (GetKind obj)), w1)
  ∧ ∃ done, issued w1 = issued w ++ done
            ∧ Forall2 (λ o o', bindObject b o = Ok o') pre done.
Proof.
  intros Hitems Hpre Hpath. split; [|by eapply updateItems_Ok].
  unfold update. rewrite Hitems, updateItems_app, Hpre. simpl.
  unfold bindObject. by rewrite Hpath.
Qed.

(** C5: [update] and [Bind] return the first error as it is.  With the
    objects before [obj] persisted and the world then [w1]: an error of
    the path extraction, of a conversion or of the write-back for [obj]
    is returned with the world still [w1]; an error of the store update
    for [obj] is returned with the world as that call left it; the
    objects after [obj] take no part; the calls issued for the earlier
    objects stay issued; and an error of the search is returned by
    [Bind] before any update. *)
Theorem update_first_error b objList pre obj post w w1 e :
  Items objList = pre ++ obj :: post →
  updateItems b pre w = (Ok (), w1) →
  (bindObject b obj = Err e → update b objList w = (Err e, w1))
  ∧ (∀ obj' c',
       bindObject b obj = Ok obj' →
       ctrlclient.Update (client b) obj' (cluster w1) = (Some e, c') →
       update b objList w
       = (Err e, {| cluster := c'; issued := issued w1 ++ [obj'] |}))
  ∧ (NestedSlice (Object obj) nestedPath = AccessErr e →
     bindObject b obj = Err e)
  ∧ (∀ containers before container after bound,
       NestedSlice (Object obj) nestedPath = Found containers →
       containers = before ++ container :: after →
       bindContainers b before = Ok bound →
       bindContainers b [container] = Err e →
       bindObject b obj = Err e)
  ∧ (∀ u, containerFromUnstructured u = Err e →
          bindContainers b [VMap u] = Err e)
  ∧ (∀ u c envFrom,
       containerFromUnstructured u = Ok c →
       appendEnvFrom (corev1.EnvFrom c) (v1alpha1.GetName (sbr b))
       = Ok envFrom →
       containerToUnstructured
         {| corev1.EnvFrom := envFrom;
            corev1.OtherFields := corev1.OtherFields c |} = Err e →
       bindContainers b [VMap u] = Err e)
  ∧ (∀ containers bound,
       NestedSlice (Object obj) nestedPath = Found containers →
       bindContainers b containers = Ok bound →
       SetNestedSlice (Object obj) bound nestedPath = Err e →
       bindObject b obj = Err e)
  ∧ (∃ done, issued w1 = issued w ++ done
             ∧ Forall2 (λ o o', bindObject b o = Ok o') pre done)
  ∧ (search b w = Err e → Bind b w = (Err e, w))
  ∧ (search b w = Ok objList → Bind b w = update b objList w).
Proof.
  intros Hitems Hpre.
  assert (update b objList w = updateItems b (obj :: post) w1) as Hstep.
  { unfold update. by rewrite Hitems, updateItems_app, Hpre. }
  repeat split.
  - intros Hobj. rewrite Hstep. simpl. by rewrite Hobj.
  - intros obj' c' Hobj Hupdate. rewrite Hstep. simpl.
    rewrite Hobj. unfold clientUpdate. by rewrite Hupdate.
  - intros Hpath. unfold bindObject. by rewrite Hpath.
  - intros containers before container after bound Hpath -> Hbefore Herr.
    unfold bindObject. rewrite Hpath.
    by rewrite (bindContainers_app_Err b before container after bound e).
  - intros u Hu. simpl. by rewrite Hu.
  - intros u c envFrom Hc Henv Hu. simpl. rewrite Hc. simpl.
    rewrite Henv. simpl. by rewrite Hu.
  - intros containers bound Hpath Hbound Hset. unfold bindObject.
    rewrite Hpath, Hbound. simpl. by rewrite Hset.
  - by eapply updateItems_Ok.
  - intros Hsearch. unfold Bind. by rewrite Hsearch.
  - intros Hsearch. unfold Bind. by rewrite Hsearch.
Qed.

(** C8: the secret [update] injects is the name of the binding request.
    Every object handed to [Update] is an item whose containers went
    through [appendEnvFrom] with [sbr.GetName()]; every entry of a list
    that call returns is an entry of the container or the new entry,
    which names that secret; and two binders with the same client whose
    requests have the same name, whatever their other fields, behave
    alike. *)
Theorem update_injects_request_name b objList w r w' :
  update b objList w = (r, w') →
  (∃ done,
     issued w' = issued w ++ done
     ∧ Forall2 (λ obj obj', ∃ containers bound,
           NestedSlice (Object obj) nestedPath = Found containers
           ∧ Forall2 (boundWith (v1alpha1.GetName (sbr b))) containers bound
           ∧ SetNestedSlice (Object obj) bound nestedPath
             = Ok (Object obj'))
         (take (length done) (Items objList)) done)
  ∧ (∀ envList envFrom env,
       appendEnvFrom envList (v1alpha1.GetName (sbr b)) = Ok envFrom →
       env ∈ envFrom →
       env ∈ envList
       ∨ (env = secretEnvFrom (v1alpha1.GetName (sbr b))
          ∧ namesSecret (v1alpha1.GetName (sbr b)) env))
  ∧ (∀ b', client b' = client b →
           v1alpha1.GetName (sbr b') = v1alpha1.GetName (sbr b) →
           update b' objList w = update b objList w).
Proof.
  intros Hupdate. split; [|split].
  - apply updateItems_issued in Hupdate as (done & Hissued & Hdone).
    exists done. split; [done|].
    eapply Forall2_impl; [done|]. intros obj obj' Hobj.
    by apply bindObject_Ok in Hobj.
  - intros envList envFrom env Henv Hin.
    apply scan_Ok in Henv as [[-> _]|[-> _]]; [by left|].
    apply elem_of_app in Hin as [Hin|Hin]; [by left|].
    apply list_elem_of_singleton in Hin as ->. right.
    split; [done|apply secretEnvFrom_names].
  - intros b' Hclient Hname. by apply updateItems_name.
Qed.

End update_properties.

(** ** The OLM resolver *)

Section olm_properties.
Context `{GoStrings} `{UnstructuredConverter}.
Implicit Types (o : OLM) (gvk : schema.GroupVersionKind).
Implicit Types (crd : olmv1alpha1.CRDDescription).
Implicit Types (crds : list olmv1alpha1.CRDDescription).

Lemma appendOwnedCRDs_maps acc (owned : list (gmap string value)) :
  appendOwnedCRDs acc (VMap <$> owned)
  = Ok (acc ++ (Build_Unstructured <$> owned)).
Proof.
  revert acc. induction owned as [|data owned IH]; intros acc; simpl.
  - by rewrite app_nil_r.
  - rewrite IH. by rewrite <-app_assoc.
Qed.

(** The nested loops of [extractOwnedCRDs] flatten the owned lists in
    the order of the packaging objects. *)
Lemma extractOwnedCRDsFrom_concat acc csvs
    (owned : list (list (gmap string value))) :
  Forall2 ownedBy csvs owned →
  extractOwnedCRDsFrom acc csvs
  = Ok (acc ++ (Build_Unstructured <$> concat owned)).
Proof.
  intros Howned. revert acc.
  induction Howned as [|csv l csvs owned Hcsv _ IH]; intros acc; simpl.
  - by rewrite app_nil_r.
  - destruct Hcsv as [Hfound|[Hnone ->]].
    + rewrite Hfound, appendOwnedCRDs_maps. simpl.
      rewrite IH, fmap_app. by rewrite app_assoc.
    + by rewrite Hnone, IH.
Qed.

Lemma loopCRDDescritions_converted {S : Type}
    (us : list (gmap string value)) crds
    (fn : olmv1alpha1.CRDDescription → S → S) (s : S) :
  Forall2 (λ m crd, crdFromUnstructured m = Ok crd) us crds →
  loopCRDDescritions (Build_Unstructured <$> us) fn s
  = (Ok (), foldl (λ acc crd, fn crd acc) s crds).
Proof.
  intros Hconv. revert s.
  induction Hconv as [|m crd us crds Hm _ IH]; intros s; simpl; [done|].
  rewrite Hm. apply IH.
Qed.

Lemma selectFn_matches gvk crd acc :
  selectFn gvk crd acc
  = if decide (matchesGVK gvk crd) then acc ++ [crd] else acc.
Proof.
  unfold selectFn.
  destruct (decide (matchesGVK gvk crd)) as [[Hk Hv]|Hn].
  - unfold kindMatches in Hk. rewrite Hk. simpl.
    destruct (String.eqb_spec (olmv1alpha1.Version crd) "") as [He|He];
      simpl; [done|].
    rewrite (Hv He). by rewrite String.eqb_refl.
  - destruct (EqualFold _ _) eqn:Hk; simpl; [|done].
    destruct (String.eqb_spec (olmv1alpha1.Version crd) "") as [He|He];
      simpl.
    + exfalso. apply Hn. split; [done|]. by intros ?.
    + destruct (String.eqb_spec (ToLower (schema.Version gvk))
                  (ToLower (olmv1alpha1.Version crd))) as [Hl|Hl];
        simpl; [|done].
      exfalso. apply Hn. split; [done|]. by intros ?.
Qed.

Lemma foldl_selectFn gvk crds acc :
  foldl (λ acc crd, selectFn gvk crd acc) acc crds
  = acc ++ filter (matchesGVK gvk) crds.
Proof.
  revert acc. induction crds as [|crd crds IH]; intros acc; simpl.
  - by rewrite app_nil_r.
  - rewrite IH, selectFn_matches, filter_cons.
    destruct (decide (matchesGVK gvk crd)); [|done].
    by rewrite <-app_assoc.
Qed.

Lemma filter_head_first gvk crds :
  match filter (matchesGVK gvk) crds with
  | [] => Forall (λ c, ¬ matchesGVK gvk c) crds
  | crd :: _ => firstMatch gvk crds crd
  end.
Proof.
  induction crds as [|c crds IH]; simpl; [constructor|].
  rewrite filter_cons. destruct (decide (matchesGVK gvk c)) as [Hc|Hc].
  - exists [], crds. split; [done|]. split; [done|constructor].
  - destruct (filter (matchesGVK gvk) crds) as [|crd rest].
    + by constructor.
    + destruct IH as (before & after & -> & Hcrd & Hbefore).
      exists (c :: before), after. split; [done|]. split; [done|].
      by constructor.
Qed.

Lemma foldl_gvkFn crds acc :
  foldl (λ acc crd, gvkFn crd acc) acc crds = acc ++ (gvkOf <$> crds).
Proof.
  revert acc. induction crds as [|crd crds IH]; intros acc; simpl.
  - by rewrite app_nil_r.
  - rewrite IH. unfold gvkFn at 1, gvkOf at 2.
    destruct (schema.ParseResourceArg (olmv1alpha1.Name crd)) as [gvr gv].
    simpl. by rewrite <-app_assoc.
Qed.

(** [ListGVKsFromCSVNamespacedName] hands the fetched object itself to
    the converter: the path of the owned descriptors is never read. *)
Lemma ListGVKsFromCSVNamespacedName_converts_csv o
    (namespacedName : types.NamespacedName) :
  ListGVKsFromCSVNamespacedName o namespacedName
  = (u ← dynamic.Get (olmClient o)
           (olmv1alpha1.SchemeGroupVersionWithResource csvResource)
           (types.Namespace namespacedName) (types.Name namespacedName);
     crd ← crdFromUnstructured (Object u);
     Ok [gvkOf crd]).
Proof.
  unfold ListGVKsFromCSVNamespacedName, extractGVKs.
  destruct (dynamic.Get _ _ _ _) as [u| |]; simpl; [|done..].
  destruct (crdFromUnstructured (Object u)) as [crd| |]; simpl; [|done..].
  unfold gvkFn, gvkOf. by destruct (schema.ParseResourceArg _).
Qed.

(** C2: with the packaging objects of the namespace listed as [csvs],
    their owned descriptors [owned] and the conversions of the flattened
    list [crds], [SelectCRDByGVK] returns without error the first entry of
    [crds] whose kind is the requested one without regard to case and
    whose version, when it declares one, is the requested one without
    regard to case, and nil when no entry is such; an entry without a
    version is matched on its kind alone. *)
Theorem SelectCRDByGVK_first_match o gvk csvs owned crds :
  listCSVs o = Ok csvs →
  Forall2 ownedBy csvs owned →
  Forall2 (λ m crd, crdFromUnstructured m = Ok crd) (concat owned) crds →
  SelectCRDByGVK o gvk = Ok (head (filter (matchesGVK gvk) crds))
  ∧ match SelectCRDByGVK o gvk with
    | Ok (Some crd) => firstMatch gvk crds crd
    | Ok None => Forall (λ c, ¬ matchesGVK gvk c) crds
    | Err _ | Panic _ => False
    end
  ∧ (∀ crd, olmv1alpha1.Version crd = "" →
            matchesGVK gvk crd ↔ kindMatches gvk crd).
Proof.
  intros Hlist Howned Hconv.
  assert (SelectCRDByGVK o gvk = Ok (head (filter (matchesGVK gvk) crds)))
    as Hselect.
  { unfold SelectCRDByGVK, ListCSVOwnedCRDs, extractOwnedCRDs.
    rewrite Hlist. simpl.
    rewrite (extractOwnedCRDsFrom_concat [] csvs owned Howned). simpl.
    rewrite (loopCRDDescritions_converted _ crds _ _ Hconv).
    rewrite foldl_selectFn. simpl.
    by destruct (filter (matchesGVK gvk) crds). }
  split; [done|]. split.
  - rewrite Hselect. pose proof (filter_head_first gvk crds) as Hfirst.
    by destruct (filter (matchesGVK gvk) crds).
  - intros crd Hversion. unfold matchesGVK, versionMatches.
    rewrite Hversion. split; [by intros [Hk _]|].
    intros Hk. split; [done|]. by intros ?.
Qed.

(** C10: [SelectCRDByGVK] never reads the requested group: two requests
    with the same version and kind get the same result from the same
    client. *)
Theorem SelectCRDByGVK_ignores_group o gvk gvk' :
  schema.Version gvk = schema.Version gvk' →
  schema.Kind gvk = schema.Kind gvk' →
  SelectCRDByGVK o gvk = SelectCRDByGVK o gvk'.
Proof.
  destruct gvk as [group version kind], gvk' as [group' version' kind'].
  simpl. intros Hversion Hkind. rewrite Hversion, Hkind. reflexivity.
Qed.

End olm_properties.

(** * Further properties *)

(** ** [appendEnvFrom]: what the returned list holds *)

Lemma elem_of_secretNames secret envList :
  secret ∈ secretNames envList ↔ Exists (namesSecret secret) envList.
Proof.
  unfold secretNames. rewrite list_elem_of_omap, Exists_exists.
  split.
  - intros (env & Hin & Hname). exists env. split; [done|].
    destruct (corev1.SecretRef env) as [ref|] eqn:Href; [|done].
    exists ref. split; [done|]. by injection Hname.
  - intros (env & Hin & ref & Href & Hname). exists env. split; [done|].
    rewrite Href. simpl. by rewrite Hname.
Qed.

Lemma secretNames_snoc envList secret :
  secretNames (envList ++ [secretEnvFrom secret])
  = secretNames envList ++ [secret].
Proof. unfold secretNames. by rewrite omap_app. Qed.

Lemma otherSecret_not_named secret envList :
  Forall (otherSecret secret) envList →
  ¬ Exists (namesSecret secret) envList.
Proof.
  rewrite Forall_forall, Exists_exists.
  intros Hall (env & Hin & Hname). by destruct (Hall env Hin).
Qed.

(** X1: a list [appendEnvFrom] returns always holds an entry that names
    the secret; it is the input when the input held one, and otherwise the
    input with one entry more. *)
Theorem appendEnvFrom_ensures_secret
    (envList l : list corev1.EnvFromSource) (secret : string) :
  appendEnvFrom envList secret = Ok l →
  Exists (namesSecret secret) l
  ∧ ((Exists (namesSecret secret) envList ∧ l = envList)
     ∨ (¬ Exists (namesSecret secret) envList
        ∧ l = envList ++ [secretEnvFrom secret]
        ∧ length l = S (length envList))).
Proof.
  intros Hl. apply scan_Ok in Hl as [[-> Hex]|[-> Hall]].
  - split; [done|]. by left.
  - split.
    + apply Exists_app. right. left. apply secretEnvFrom_names.
    + right. split; [by apply otherSecret_not_named|]. split; [done|].
      rewrite length_app. simpl. lia.
Qed.

(** X2: [appendEnvFrom] keeps the secret names of an [envFrom] list
    distinct: when no two entries of the input carry the same secret name,
    no two entries of the returned list do. *)
Theorem appendEnvFrom_names_unique
    (envList l : list corev1.EnvFromSource) (secret : string) :
  NoDup (secretNames envList) →
  appendEnvFrom envList secret = Ok l →
  NoDup (secretNames l).
Proof.
  intros Hnodup Hl. apply scan_Ok in Hl as [[-> _]|[-> Hall]]; [done|].
  rewrite secretNames_snoc. apply NoDup_app. split; [done|].
  split; [|apply NoDup_singleton].
  intros name Hname Hin. apply list_elem_of_singleton in Hin as ->.
  apply elem_of_secretNames in Hname.
  by apply (otherSecret_not_named secret envList).
Qed.

(** ** Nested fields: reading after writing *)

Lemma setNestedFieldFrom_cons walked m v field next fields :
  setNestedFieldFrom walked m v (field :: next :: fields)
  = match m !! field with
    | Some (VMap valMap) =>
        m' ← setNestedFieldFrom (walked ++ [field]) valMap v (next :: fields);
        Ok (<[field := VMap m']> m)
    | Some _ => Err (ErrNotAMap (walked ++ [field]))
    | None =>
        m' ← setNestedFieldFrom (walked ++ [field]) ∅ v (next :: fields);
        Ok (<[field := VMap m']> m)
    end.
Proof. reflexivity. Qed.

Lemma setNestedFieldFrom_inv walked m v field fields m' :
  setNestedFieldFrom walked m v (field :: fields) = Ok m' →
  ∃ x, m' = <[field := x]> m
       ∧ match fields with
         | [] => x = v
         | _ :: _ =>
             ∃ n n', x = VMap n'
               ∧ (m !! field = Some (VMap n) ∨ (m !! field = None ∧ n = ∅))
               ∧ setNestedFieldFrom (walked ++ [field]) n v fields = Ok n'
         end.
Proof.
  destruct fields as [|next fields].
  - simpl. intros [= <-]. by exists v.
  - rewrite setNestedFieldFrom_cons.
    destruct (m !! field) as [[| | | | |n]|] eqn:Hfield; try done.
    + destruct (setNestedFieldFrom _ n v _) as [n'| |] eqn:Hn; [|done..].
      simpl. intros [= <-]. exists (VMap n'). split; [done|].
      exists n, n'. split; [done|]. split; [by left|done].
    + destruct (setNestedFieldFrom _ ∅ v _) as [n'| |] eqn:Hn; [|done..].
      simpl. intros [= <-]. exists (VMap n'). split; [done|].
      exists ∅, n'. split; [done|]. split; [by right|done].
Qed.

Lemma nestedFieldFrom_set walked walked' m v fields m' :
  setNestedFieldFrom walked m v fields = Ok m' →
  nestedFieldFrom walked' (VMap m') fields = Found v.
Proof.
  revert walked walked' m m'.
  induction fields as [|field fields IH]; intros walked walked' m m';
    [done|].
  intros Hset. apply setNestedFieldFrom_inv in Hset as (x & -> & Hx).
  simpl. rewrite lookup_insert_eq.
  destruct fields as [|next fields]; [by subst|].
  destruct Hx as (n & n' & -> & _ & Hn). by eapply IH.
Qed.

Lemma setNestedFieldFrom_again walked m v fields m' :
  setNestedFieldFrom walked m v fields = Ok m' →
  setNestedFieldFrom walked m' v fields = Ok m'.
Proof.
  revert walked m m'.
  induction fields as [|field fields IH]; intros walked m m'; [done|].
  intros Hset. apply setNestedFieldFrom_inv in Hset as (x & -> & Hx).
  destruct fields as [|next fields].
  - subst. simpl. by rewrite insert_insert_eq.
  - destruct Hx as (n & n' & -> & _ & Hn).
    rewrite setNestedFieldFrom_cons, lookup_insert_eq.
    rewrite (IH _ _ _ Hn). simpl. by rewrite insert_insert_eq.
Qed.

Lemma setNestedFieldFrom_other walked m v field fields m' key :
  setNestedFieldFrom walked m v (field :: fields) = Ok m' →
  key ≠ field → m' !! key = m !! key.
Proof.
  intros Hset Hkey. apply setNestedFieldFrom_inv in Hset as (x & -> & _).
  by rewrite lookup_insert_ne.
Qed.

Lemma NestedSlice_SetNestedSlice obj l fields obj' :
  SetNestedSlice obj l fields = Ok obj' →
  NestedSlice obj' fields = Found l.
Proof.
  intros Hset. unfold NestedSlice, NestedFieldNoCopy.
  by rewrite (nestedFieldFrom_set _ _ _ _ _ _ Hset).
Qed.

(** ** [update] and [Bind]: success, frame and convergence *)

Lemma appendEnvFrom_again envList secret l :
  appendEnvFrom envList secret = Ok l → appendEnvFrom l secret = Ok l.
Proof.
  intros Hl. pose proof Hl as Hcases.
  apply scan_Ok in Hcases as [[-> _]|[-> Hall]]; [done|].
  apply scan_hit; [by eapply otherSecret_hasSecretRef|].
  apply secretEnvFrom_names.
Qed.

Lemma scan_nil_first envList entries env entries' secret :
  Forall (otherSecret secret) entries →
  corev1.SecretRef env = None →
  appendEnvFromScan envList (entries ++ env :: entries') secret
  = Panic NilDereference.
Proof.
  intros Hentries Hnil.
  induction Hentries as [|env0 entries [[ref Href] Hother] _ IH]; simpl app.
  - by apply scan_step_nil.
  - erewrite scan_step_ne; [done|done|].
    intros Hname. apply Hother. by exists ref.
Qed.

(** C3: [appendEnvFrom] is not idempotent on every [envFrom] list, and
    does not return every list that holds the name as it is.  The scan
    reads [SecretRef.Name] of each entry in turn, so an entry without
    secret reference that comes before any entry of the name makes the
    call panic by nil dereference, whatever follows it: the list of a
    config-map-only entry followed by the entry of secret db holds the
    name db, and the call with db panics instead of returning it. *)
Theorem appendEnvFrom_panics_before_match :
  (∀ entries env entries' secret,
     Forall (otherSecret secret) entries →
     corev1.SecretRef env = None →
     appendEnvFrom (entries ++ env :: entries') secret
     = Panic NilDereference)
  ∧ Exists (namesSecret "db")
      [sample.configMapOnly "settings"; secretEnvFrom "db"]
  ∧ appendEnvFrom [sample.configMapOnly "settings"; secretEnvFrom "db"] "db"
    = Panic NilDereference
  ∧ (∀ once,
       appendEnvFrom [sample.configMapOnly "settings"; secretEnvFrom "db"] "db"
       ≠ Ok once).
Proof.
  split; [|split; [|split]].
  - intros entries env entries' secret Hentries Hnil.
    by apply scan_nil_first.
  - right. left. apply secretEnvFrom_names.
  - reflexivity.
  - by intros once.
Qed.

Section further_update.
Context `{GoStrings} `{UnstructuredConverter} {Cluster : Type}.
Implicit Types (b : Binder Cluster) (w : World Cluster).
Implicit Types (obj : Unstructured) (items : list Unstructured).

Lemma updateItems_Ok_store b items w w1 :
  updateItems b items w = (Ok (), w1) →
  ∃ done, Forall2 (λ o o', bindObject b o = Ok o') items done
          ∧ applyUpdates (client b) done (cluster w) = Some (cluster w1)
          ∧ issued w1 = issued w ++ done.
Proof.
  revert w. induction items as [|obj items IH]; intros w; simpl.
  - intros [= <-]. exists []. by rewrite app_nil_r.
  - destruct (bindObject b obj) as [obj'| |] eqn:Hobj; [|done..].
    unfold clientUpdate.
    destruct (ctrlclient.Update (client b) obj' (cluster w)) as [[e|] c']
      eqn:Hupdate; [done|].
    intros Hrest. apply IH in Hrest as (done & Hdone & Hstore & Hissued).
    exists (obj' :: done). simpl in *. rewrite Hupdate.
    split; [by constructor|]. split; [done|].
    by rewrite Hissued, <-app_assoc.
Qed.

Lemma updateItems_store_Ok b items done w store1 :
  Forall2 (λ o o', bindObject b o = Ok o') items done →
  applyUpdates (client b) done (cluster w) = Some store1 →
  updateItems b items w
  = (Ok (), {| cluster := store1; issued := issued w ++ done |}).
Proof.
  intros Hdone. revert w.
  induction Hdone as [|obj obj' items done Hobj _ IH]; intros w; simpl.
  - intros [= <-]. rewrite app_nil_r. by destruct w.
  - rewrite Hobj. unfold clientUpdate.
    destruct (ctrlclient.Update (client b) obj' (cluster w)) as [[e|] c'];
      [done|].
    intros Hstore.
    rewrite (IH {| cluster := c'; issued := issued w ++ [obj'] |} Hstore).
    simpl. by rewrite <-app_assoc.
Qed.

(** X3: [update] succeeds exactly when every item binds and every call of
    [Update] returns nil; it has then issued one call per item, in the
    order of the items, each with the bound form of its item, also for
    items the binding left as they were. *)
Theorem update_success_iff b objList w w1 :
  update b objList w = (Ok (), w1)
  ↔ ∃ done,
      Forall2 (λ o o', bindObject b o = Ok o') (Items objList) done
      ∧ length done = length (Items objList)
      ∧ applyUpdates (client b) done (cluster w) = Some (cluster w1)
      ∧ issued w1 = issued w ++ done.
Proof.
  unfold update. split.
  - intros Hupdate.
    apply updateItems_Ok_store in Hupdate as (done & Hdone & Hstore & Hissued).
    exists done. split; [done|].
    split; [symmetry; by eapply Forall2_length|done].
  - intros (done & Hdone & _ & Hstore & Hissued).
    rewrite (updateItems_store_Ok b _ done w _ Hdone Hstore).
    rewrite <-Hissued. by destruct w1.
Qed.

(** X4: with a resource kind that lower-cases to neither "deployment" nor
    "deploymentconfig", [Bind] returns the unsupported-kind error and
    leaves the world as it was: the result is the same for every client,
    so neither [List] nor [Update] is called. *)
Theorem Bind_unsupported_kind b w :
  let kind :=
    ToLower (v1alpha1.ResourceKind
               (v1alpha1.SpecApplicationSelector (sbr b))) in
  kind ≠ "deployment" → kind ≠ "deploymentconfig" →
  Bind b w = (Err (ErrUnsupportedKind kind), w)
  ∧ ∀ c, Bind {| client := c; sbr := sbr b |} w
         = (Err (ErrUnsupportedKind kind), w).
Proof.
  intros kind Hd Hdc.
  assert (∀ c, Bind {| client := c; sbr := sbr b |} w
               = (Err (ErrUnsupportedKind kind), w)) as Hany.
  { intros c. unfold Bind, search, getListGVK, getResourceKind. simpl.
    fold kind. apply String.eqb_neq in Hd, Hdc. by rewrite Hd, Hdc. }
  split; [|done]. specialize (Hany (client b)). by destruct b.
Qed.

(** X5: when [Bind] succeeds, it has listed once, with the list kind of
    the request's resource kind, the request's namespace and its match
    labels as the label selector, and has issued one call of [Update] per
    listed object, in order, all of which returned nil. *)
Theorem Bind_success b w w1 :
  Bind b w = (Ok (), w1) →
  ∃ gvk items done,
    getListGVK b = Ok gvk
    ∧ ctrlclient.List (client b)
        {| ctrlclient.Namespace := v1alpha1.GetNamespace (sbr b);
           ctrlclient.LabelSelector :=
             v1alpha1.MatchLabels
               (v1alpha1.SpecApplicationSelector (sbr b)) |}
        gvk (cluster w) = Ok items
    ∧ Forall2 (λ o o', bindObject b o = Ok o') items done
    ∧ applyUpdates (client b) done (cluster w) = Some (cluster w1)
    ∧ issued w1 = issued w ++ done.
Proof.
  unfold Bind, search.
  destruct (getListGVK b) as [gvk| |] eqn:Hgvk; simpl; [|done..].
  destruct (ctrlclient.List _ _ _ _) as [items| |] eqn:Hlist; simpl;
    [|done..].
  unfold update. simpl. intros Hupdate.
  apply updateItems_Ok_store in Hupdate as (done & Hdone & Hstore & Hissued).
  by exists gvk, items, done.
Qed.

(** X6: [update] writes only below the key spec.  The object handed to
    [Update] has the bound containers at spec.template.spec.containers, as
    many as the object had; every other top-level key, and with them the
    kind and the name of the object, is as in the object. *)
Theorem bindObject_frame b obj obj' :
  bindObject b obj = Ok obj' →
  ∃ containers bound,
    NestedSlice (Object obj) nestedPath = Found containers
    ∧ NestedSlice (Object obj') nestedPath = Found bound
    ∧ Forall2 (boundWith (v1alpha1.GetName (sbr b))) containers bound
    ∧ length bound = length containers
    ∧ (∀ key, key ≠ "spec" → Object obj' !! key = Object obj !! key)
    ∧ GetKind obj' = GetKind obj
    ∧ GetName obj' = GetName obj.
Proof.
  intros Hobj.
  apply bindObject_Ok in Hobj as (containers & bound & Hget & Hbound & Hset).
  exists containers, bound. split; [done|].
  split; [by eapply NestedSlice_SetNestedSlice|]. split; [done|].
  split; [symmetry; by eapply Forall2_length|].
  assert (∀ key, key ≠ "spec" → Object obj' !! key = Object obj !! key)
    as Hframe.
  { intros key Hkey. unfold SetNestedSlice, nestedPath in Hset.
    by apply (setNestedFieldFrom_other _ _ _ _ _ _ key Hset). }
  split; [done|].
  unfold GetKind, GetName, getNestedString, NestedString, NestedFieldNoCopy.
  simpl. by rewrite !Hframe.
Qed.

Lemma bindContainers_fixed b containers bound :
  readsBack (v1alpha1.GetName (sbr b)) →
  Forall2 (boundWith (v1alpha1.GetName (sbr b))) containers bound →
  bindContainers b bound = Ok bound.
Proof.
  intros Hreads Hbound.
  induction Hbound as [|container v containers bound Hv _ IH]; [done|].
  destruct Hv as (u & c & envFrom & u' & -> & Hc & Henv & Hu' & ->).
  simpl. rewrite (Hreads u c envFrom u' Hc Henv Hu'). simpl.
  rewrite (appendEnvFrom_again _ _ _ Henv). simpl.
  rewrite Hu'. simpl. by rewrite IH.
Qed.

Lemma bindObject_fixed b obj obj' :
  readsBack (v1alpha1.GetName (sbr b)) →
  bindObject b obj = Ok obj' → bindObject b obj' = Ok obj'.
Proof.
  intros Hreads Hobj.
  apply bindObject_Ok in Hobj as (containers & bound & _ & Hbound & Hset).
  unfold bindObject.
  rewrite (NestedSlice_SetNestedSlice _ _ _ _ Hset).
  rewrite (bindContainers_fixed b containers bound Hreads Hbound). simpl.
  unfold SetNestedSlice in *.
  rewrite (setNestedFieldFrom_again _ _ _ _ _ Hset). simpl.
  by destruct obj'.
Qed.

(** X7: a pass of [update] converges.  With a converter that reads back
    what it wrote, every object a successful pass handed to [Update] is a
    fixed point of the binding: a later pass over it binds it to itself,
    so no entry is added twice. *)
Theorem update_converges b objList w w1 :
  readsBack (v1alpha1.GetName (sbr b)) →
  update b objList w = (Ok (), w1) →
  ∃ done,
    issued w1 = issued w ++ done
    ∧ Forall2 (λ o o', bindObject b o = Ok o') (Items objList) done
    ∧ Forall (λ o', bindObject b o' = Ok o') done.
Proof.
  intros Hreads Hupdate.
  apply updateItems_Ok in Hupdate as (done & Hissued & Hdone).
  exists done. split; [done|]. split; [done|].
  clear Hissued. induction Hdone as [|o o' items done Ho _ IH];
    constructor; [by eapply bindObject_fixed|done].
Qed.

Lemma bindContainers_app_Panic b before container after bound p :
  bindContainers b before = Ok bound →
  bindContainers b [container] = Panic p →
  bindContainers b (before ++ container :: after) = Panic p.
Proof.
  revert bound. induction before as [|c0 before IH]; intros bound; simpl.
  - intros _. destruct container as [| | | | |u]; try done.
    destruct (containerFromUnstructured u) as [c| |]; simpl; try done.
    destruct (appendEnvFrom _ _) as [envFrom| |]; simpl; try done.
    by destruct (containerToUnstructured _) as [u'| |].
  - destruct c0 as [| | | | |u]; try done.
    do 4 stage. intros _ Hpanic. by erewrite IH.
Qed.

Lemma update_panic b objList pre obj post w w1 containers p :
  Items objList = pre ++ obj :: post →
  updateItems b pre w = (Ok (), w1) →
  NestedSlice (Object obj) nestedPath = Found containers →
  bindContainers b containers = Panic p →
  update b objList w = (Panic p, w1).
Proof.
  intros Hitems Hpre Hpath Hpanic.
  unfold update. rewrite Hitems, updateItems_app, Hpre. simpl.
  unfold bindObject. by rewrite Hpath, Hpanic.
Qed.

(** X8: an [envFrom] entry without a secret reference takes the whole pass
    down.  When a container of an object converts to a list in which an
    entry without secret reference comes before any entry that names the
    request, [update] panics by nil dereference at that object: the
    objects before it are persisted, no [Update] is issued for it, and the
    objects after it are not looked at. *)
Theorem update_panics_without_secret_ref
    b objList pre obj post w w1 before u after bound c entries env entries' :
  Items objList = pre ++ obj :: post →
  updateItems b pre w = (Ok (), w1) →
  NestedSlice (Object obj) nestedPath = Found (before ++ VMap u :: after) →
  bindContainers b before = Ok bound →
  containerFromUnstructured u = Ok c →
  corev1.EnvFrom c = entries ++ env :: entries' →
  Forall (otherSecret (v1alpha1.GetName (sbr b))) entries →
  corev1.SecretRef env = None →
  update b objList w = (Panic NilDereference, w1).
Proof.
  intros Hitems Hpre Hpath Hbefore Hc Henv Hentries Hnil.
  eapply update_panic; [done..|].
  eapply bindContainers_app_Panic; [done|].
  simpl. rewrite Hc. simpl. unfold appendEnvFrom. rewrite Henv.
  by rewrite scan_nil_first.
Qed.

(** X9: an entry of the container list that is not a map makes [update]
    panic at the type assertion, with the world the objects before left:
    no [Update] is issued for the object. *)
Theorem update_panics_on_non_map
    b objList pre obj post w w1 before container after bound :
  Items objList = pre ++ obj :: post →
  updateItems b pre w = (Ok (), w1) →
  NestedSlice (Object obj) nestedPath = Found (before ++ container :: after) →
  bindContainers b before = Ok bound →
  (∀ u, container ≠ VMap u) →
  update b objList w = (Panic TypeAssertion, w1).
Proof.
  intros Hitems Hpre Hpath Hbefore Hmap.
  eapply update_panic; [done..|].
  eapply bindContainers_app_Panic; [done|].
  destruct container as [| | | | |u]; try done. by destruct (Hmap u).
Qed.

End further_update.

(** ** The OLM resolver: flattening, failures and the descriptors made *)

Lemma cutDot_append plural group :
  schema.cutDot plural = None →
  schema.cutDot (String.append plural (String "."%char group))
  = Some (plural, group).
Proof.
  induction plural as [|c plural IH]; simpl; [done|].
  destruct (Ascii.eqb c "."%char); [done|].
  destruct (schema.cutDot plural) as [[before after]|]; [done|].
  intros _. by rewrite IH.
Qed.

Section further_olm.
Context `{GoStrings} `{UnstructuredConverter}.
Implicit Types (o : OLM) (gvk : schema.GroupVersionKind).
Implicit Types (crd : olmv1alpha1.CRDDescription).
Implicit Types (crds : list olmv1alpha1.CRDDescription).

Lemma extractOwnedCRDsFrom_app acc pre rest :
  extractOwnedCRDsFrom acc (pre ++ rest)
  = (crds ← extractOwnedCRDsFrom acc pre; extractOwnedCRDsFrom crds rest).
Proof.
  revert acc. induction pre as [|csv pre IH]; intros acc; simpl; [done|].
  destruct (NestedSlice _ _) as [ownedCRDs| |]; [|done..].
  destruct (appendOwnedCRDs acc ownedCRDs) as [crds| |]; simpl; [|done..].
  apply IH.
Qed.

Lemma appendOwnedCRDs_non_map acc (maps : list (gmap string value)) v rest :
  (∀ m, v ≠ VMap m) →
  appendOwnedCRDs acc ((VMap <$> maps) ++ v :: rest) = Panic TypeAssertion.
Proof.
  intros Hv. revert acc. induction maps as [|m maps IH]; intros acc; simpl.
  - destruct v as [| | | | |m]; try done. by destruct (Hv m).
  - apply IH.
Qed.

Lemma loopCRDDescritions_app_Err {S : Type}
    (before : list (gmap string value)) crds m after
    (fn : olmv1alpha1.CRDDescription → S → S) (s : S) e :
  Forall2 (λ m crd, crdFromUnstructured m = Ok crd) before crds →
  crdFromUnstructured m = Err e →
  loopCRDDescritions (Build_Unstructured <$> (before ++ m :: after)) fn s
  = (Err e, foldl (λ acc crd, fn crd acc) s crds).
Proof.
  intros Hconv Hm. revert s.
  induction Hconv as [|m0 crd before crds Hm0 _ IH]; intros s; simpl.
  - by rewrite Hm.
  - rewrite Hm0. apply IH.
Qed.

(** X10: [ListCSVOwnedCRDs] returns the owned descriptors of the listed
    packaging objects as one list, object after object in listing order
    and in the order of each owned list; an object without the path
    customresourcedefinitions.owned adds nothing and is no error. *)
Theorem ListCSVOwnedCRDs_flattens o csvs
    (owned : list (list (gmap string value))) :
  listCSVs o = Ok csvs →
  Forall2 ownedBy csvs owned →
  ListCSVOwnedCRDs o = Ok (Build_Unstructured <$> concat owned)
  ∧ extractOwnedCRDs csvs = Ok (Build_Unstructured <$> concat owned)
  ∧ ∀ found, ListCSVOwnedCRDs o = Ok found →
             length found = sum_list (length <$> owned).
Proof.
  intros Hlist Howned.
  assert (extractOwnedCRDs csvs = Ok (Build_Unstructured <$> concat owned))
    as Hextract.
  { unfold extractOwnedCRDs.
    by rewrite (extractOwnedCRDsFrom_concat [] csvs owned Howned). }
  assert (ListCSVOwnedCRDs o = Ok (Build_Unstructured <$> concat owned))
    as Hall.
  { unfold ListCSVOwnedCRDs. rewrite Hlist. simpl. done. }
  split; [done|]. split; [done|].
  intros found. rewrite Hall. intros [= <-].
  rewrite length_fmap. clear.
  induction owned as [|l owned IH]; simpl; [done|].
  by rewrite length_app, IH.
Qed.

(** X11: [extractOwnedCRDs] stops at the first packaging object it cannot
    read.  After objects whose owned lists are read, an object whose path
    holds something that is not a list gives the accessor error, and an
    object whose owned list holds an entry that is not a map makes the
    call panic at the type assertion; in both cases the descriptors
    gathered so far are dropped. *)
Theorem extractOwnedCRDs_first_failure pre csv post
    (owned : list (list (gmap string value))) :
  Forall2 ownedBy pre owned →
  (∀ e, NestedSlice (Object csv) ownedPath = AccessErr e →
        extractOwnedCRDs (pre ++ csv :: post) = Err e)
  ∧ (∀ (maps : list (gmap string value)) v rest,
       NestedSlice (Object csv) ownedPath
       = Found ((VMap <$> maps) ++ v :: rest) →
       (∀ m, v ≠ VMap m) →
       extractOwnedCRDs (pre ++ csv :: post) = Panic TypeAssertion).
Proof.
  intros Howned. unfold extractOwnedCRDs.
  rewrite extractOwnedCRDsFrom_app.
  rewrite (extractOwnedCRDsFrom_concat [] pre owned Howned). simpl.
  split.
  - intros e Hpath. by rewrite Hpath.
  - intros maps v rest Hpath Hv. rewrite Hpath.
    by rewrite appendOwnedCRDs_non_map.
Qed.

(** X12: [SelectCRDByGVK] converts every owned descriptor of the namespace
    before it answers: when one of them does not convert, the call returns
    that error, also when a descriptor before it matches the request. *)
Theorem SelectCRDByGVK_conversion_error o gvk csvs owned before m after crds e :
  listCSVs o = Ok csvs →
  Forall2 ownedBy csvs owned →
  concat owned = before ++ m :: after →
  Forall2 (λ m crd, crdFromUnstructured m = Ok crd) before crds →
  crdFromUnstructured m = Err e →
  SelectCRDByGVK o gvk = Err e.
Proof.
  intros Hlist Howned Hconcat Hbefore Hm.
  unfold SelectCRDByGVK, ListCSVOwnedCRDs, extractOwnedCRDs.
  rewrite Hlist. simpl.
  rewrite (extractOwnedCRDsFrom_concat [] csvs owned Howned). simpl.
  rewrite Hconcat.
  by rewrite (loopCRDDescritions_app_Err before crds m after _ _ e Hbefore Hm).
Qed.

(** X13: [extractGVKs] makes one descriptor of every object it is given,
    in order: version and kind as converted, the group parsed from the
    name.  At the first object that does not convert it returns that error
    and no descriptor. *)
Theorem extractGVKs_in_order (us : list (gmap string value)) crds :
  Forall2 (λ m crd, crdFromUnstructured m = Ok crd) us crds →
  extractGVKs (Build_Unstructured <$> us) = Ok (gvkOf <$> crds)
  ∧ (∀ gvks, extractGVKs (Build_Unstructured <$> us) = Ok gvks →
             length gvks = length us)
  ∧ (∀ m after e, crdFromUnstructured m = Err e →
       extractGVKs (Build_Unstructured <$> (us ++ m :: after)) = Err e).
Proof.
  intros Hconv.
  assert (extractGVKs (Build_Unstructured <$> us) = Ok (gvkOf <$> crds))
    as Hall.
  { unfold extractGVKs.
    rewrite (loopCRDDescritions_converted us crds _ _ Hconv).
    by rewrite foldl_gvkFn. }
  split; [done|]. split.
  - intros gvks. rewrite Hall. intros [= <-].
    rewrite length_fmap. symmetry. by eapply Forall2_length.
  - intros m after e Hm. unfold extractGVKs.
    by rewrite (loopCRDDescritions_app_Err us crds m after _ _ e Hconv Hm).
Qed.

(** X14: [ListCSVOwnedCRDsAsGVKs] hands the listed packaging objects
    themselves to [extractGVKs]: it returns one descriptor per packaging
    object, made of the conversion of that object, whatever the objects
    own. *)
Theorem ListCSVOwnedCRDsAsGVKs_one_per_csv o csvs crds :
  listCSVs o = Ok csvs →
  Forall2 (λ csv crd, crdFromUnstructured (Object csv) = Ok crd) csvs crds →
  ListCSVOwnedCRDsAsGVKs o = Ok (gvkOf <$> crds)
  ∧ ∀ gvks, ListCSVOwnedCRDsAsGVKs o = Ok gvks → length gvks = length csvs.
Proof.
  intros Hlist Hconv.
  assert (ListCSVOwnedCRDsAsGVKs o = Ok (gvkOf <$> crds)) as Hall.
  { unfold ListCSVOwnedCRDsAsGVKs, extractGVKs. rewrite Hlist. simpl.
    assert (csvs = Build_Unstructured <$> (Object <$> csvs)) as Hcsvs.
    { clear. induction csvs as [|[m] csvs IH]; simpl; [done|]. by f_equal. }
    rewrite Hcsvs.
    rewrite (loopCRDDescritions_converted (Object <$> csvs) crds).
    - by rewrite foldl_gvkFn.
    - by apply Forall2_fmap_l. }
  split; [done|]. intros gvks. rewrite Hall. intros [= <-].
  rewrite length_fmap. symmetry. by eapply Forall2_length.
Qed.

(** X15: the group of the descriptor [extractGVKs] makes is the text of
    the descriptor's name after its first dot: the group of
    <plural>.<group>, dots of the group included, and no group for a name
    without a dot. *)
Theorem gvkOf_group crd :
  (∀ plural group,
     schema.cutDot plural = None →
     olmv1alpha1.Name crd = String.append plural (String "."%char group) →
     schema.Group (gvkOf crd) = group)
  ∧ (schema.cutDot (olmv1alpha1.Name crd) = None →
     schema.Group (gvkOf crd) = "")
  ∧ ∀ gvks, gvkFn crd gvks = gvks ++ [gvkOf crd].
Proof.
  split; [|split].
  - intros plural group Hplural Hname.
    unfold gvkOf, schema.ParseResourceArg, schema.ParseGroupResource. simpl.
    by rewrite Hname, (cutDot_append plural group Hplural).
  - intros Hname.
    unfold gvkOf, schema.ParseResourceArg, schema.ParseGroupResource. simpl.
    by rewrite Hname.
  - intros gvks. unfold gvkFn, gvkOf.
    by destruct (schema.ParseResourceArg _).
Qed.

End further_olm.

(** ** Runs on the sample implementation *)

#[local] Existing Instance sample.asciiStrings.
#[local] Existing Instance sample.converter.

(** binder_test.go, [TestBinderGetListGVK]. *)
Example TestBinderGetListGVK :
  schema.Kind <$> getListGVK (sample.binder "service-binding-request" "Deployment")
  = Ok "DeploymentList".
Proof. reflexivity. Qed.

(** binder_test.go, [TestBinderAppendEnvFrom]. *)
Example TestBinderAppendEnvFrom :
  appendEnvFrom [] "secret" = Ok [secretEnvFrom "secret"].
Proof. reflexivity. Qed.

(** The end-to-end scenario of the specification: one matching deployment
    whose container has no [envFrom] entry. *)
Example Bind_end_to_end :
  Bind (sample.binder "service-binding-request" "deployment")
       (sample.world [sample.deployment "app" []])
  = (Ok (),
     {| cluster := [sample.bound "app" "service-binding-request"];
        issued := [sample.bound "app" "service-binding-request"] |}).
Proof. vm_compute. reflexivity. Qed.

Lemma update_missing_path_witness :
  let b := sample.binder "sbr" "Deployment" in
  let w := sample.world [sample.deployment "web" []; sample.bare "job";
                         sample.deployment "api" []] in
  update b (sample.deploymentList
              [sample.deployment "web" []; sample.bare "job";
               sample.deployment "api" []]) w
  = (Err (ErrNestedPathNotFound ["spec"; "template"; "spec"; "containers"]
            "Deployment"),
     {| cluster := [sample.bound "web" "sbr"; sample.bare "job";
                    sample.deployment "api" []];
        issued := [sample.bound "web" "sbr"] |}).
Proof.
  intros b w.
  apply (update_missing_path b _ [sample.deployment "web" []]
           (sample.bare "job") [sample.deployment "api" []] w).
  - reflexivity.
  - vm_compute. reflexivity.
  - vm_compute. reflexivity.
Defined.

Lemma update_first_error_witness :
  let b := sample.binder "sbr" "Deployment" in
  let w := sample.world [sample.deployment "web" []] in
  update b (sample.deploymentList
              [sample.deployment "web" []; sample.deployment "gone" [];
               sample.deployment "api" []]) w
  = (Err (ErrExternal "not found"),
     {| cluster := [sample.bound "web" "sbr"];
        issued := [sample.bound "web" "sbr"; sample.bound "gone" "sbr"] |}).
Proof.
  intros b w.
  refine (proj1 (proj2 (update_first_error b _ [sample.deployment "web" []]
           (sample.deployment "gone" []) [sample.deployment "api" []] w
           {| cluster := [sample.bound "web" "sbr"];
              issued := [sample.bound "web" "sbr"] |}
           (ErrExternal "not found") _ _))
           (sample.bound "gone" "sbr") [sample.bound "web" "sbr"] _ _).
  - reflexivity.
  - vm_compute. reflexivity.
  - vm_compute. reflexivity.
  - vm_compute. reflexivity.
Defined.

Lemma update_injects_request_name_witness :
  let w := sample.world [sample.deployment "web" []] in
  update (sample.binder "sbr" "DeploymentConfig")
    (sample.deploymentList [sample.deployment "web" []]) w
  = update (sample.binder "sbr" "Deployment")
      (sample.deploymentList [sample.deployment "web" []]) w
  ∧ (update (sample.binder "sbr" "Deployment")
       (sample.deploymentList [sample.deployment "web" []]) w).2
    = {| cluster := [sample.bound "web" "sbr"];
         issued := [sample.bound "web" "sbr"] |}.
Proof.
  intros w.
  pose proof (update_injects_request_name (sample.binder "sbr" "Deployment")
                (sample.deploymentList [sample.deployment "web" []]) w (Ok ())
                {| cluster := [sample.bound "web" "sbr"];
                   issued := [sample.bound "web" "sbr"] |})
    as Hinjects.
  destruct Hinjects as (_ & _ & Hname); [vm_compute; reflexivity|].
  split; [apply Hname; reflexivity | vm_compute; reflexivity].
Defined.

Lemma SelectCRDByGVK_first_match_witness :
  SelectCRDByGVK (NewOLM (sample.csvClient sample.catalog) "binder")
    (sample.requested "postgresql.baiju.dev")
  = Ok (Some (sample.database "v1alpha1" "database")).
Proof.
  refine (proj1 (SelectCRDByGVK_first_match
           (NewOLM (sample.csvClient sample.catalog) "binder")
           (sample.requested "postgresql.baiju.dev")
           sample.catalog
           [[]; [{[ "name" := VString "databases.postgresql.baiju.dev";
                    "version" := VString "v2";
                    "kind" := VString "Database" ]};
                 {[ "name" := VString "databases.postgresql.baiju.dev";
                    "version" := VString "v1alpha1";
                    "kind" := VString "database" ]};
                 {[ "name" := VString "databases.postgresql.baiju.dev";
                    "version" := VString "";
                    "kind" := VString "DATABASE" ]}]]
           [sample.database "v2" "Database";
            sample.database "v1alpha1" "database";
            sample.database "" "DATABASE"] _ _ _)).
  - reflexivity.
  - constructor; [|constructor; [|constructor]].
    + right. split; [vm_compute; reflexivity | reflexivity].
    + left. vm_compute. reflexivity.
  - repeat constructor; vm_compute; reflexivity.
Defined.

Lemma SelectCRDByGVK_ignores_group_witness :
  SelectCRDByGVK (NewOLM (sample.csvClient sample.catalog) "binder")
    (sample.requested "postgresql.baiju.dev")
  = SelectCRDByGVK (NewOLM (sample.csvClient sample.catalog) "binder")
      (sample.requested "apps").
Proof.
  apply SelectCRDByGVK_ignores_group; reflexivity.
Defined.

(** C1: [ListGVKsFromCSVNamespacedName] fetches the one packaging object of
    the given name, and then does not extract its owned descriptors: for
    every converter and client its result is the single descriptor made of
    the conversion of the fetched object itself.  For a packaging object
    that owns Database of group postgresql.baiju.dev, the code returns the
    descriptor of kind ClusterServiceVersion with no group and no version,
    where the specification, and the doc comment of the function, give the
    descriptor of the owned Database. *)
Theorem ListGVKsFromCSVNamespacedName_skips_owned :
  (∀ (converter : UnstructuredConverter) o namespacedName,
     ListGVKsFromCSVNamespacedName o namespacedName
     = (u ← dynamic.Get (olmClient o)
              (olmv1alpha1.SchemeGroupVersionWithResource csvResource)
              (types.Namespace namespacedName) (types.Name namespacedName);
        crd ← crdFromUnstructured (Object u);
        Ok [gvkOf crd]))
  ∧ ownedBy sample.postgresql
      [{[ "name" := VString "databases.postgresql.baiju.dev";
          "version" := VString "v1alpha1";
          "kind" := VString "Database" ]}]
  ∧ ListGVKsFromCSVNamespacedName
      (NewOLM (sample.csvClient [sample.postgresql]) "binder")
      sample.postgresqlName
    = Ok [{| schema.Group := "";
             schema.Version := "";
             schema.Kind := "ClusterServiceVersion" |}]
  ∧ listGVKsForPackagingObject_spec
      (NewOLM (sample.csvClient [sample.postgresql]) "binder")
      sample.postgresqlName
    = Ok [{| schema.Group := "postgresql.baiju.dev";
             schema.Version := "v1alpha1";
             schema.Kind := "Database" |}].
Proof.
  split; [intros converter o namespacedName;
          apply ListGVKsFromCSVNamespacedName_converts_csv|].
  split; [left; vm_compute; reflexivity|].
  split; vm_compute; reflexivity.
Qed.

(** ** The sample converter reads back what it wrote *)

Lemma sample_secretRefField m r :
  sample.secretRefField m = Ok r →
  r = None ∨ ∃ name, r = Some {| corev1.secretReference := {| corev1.Name := name |};
                                 corev1.secretOptional := None |}.
Proof.
  unfold sample.secretRefField.
  destruct (m !! "secretRef") as [[| | | | |ref]|]; try done.
  - intros [= <-]. by left.
  - destruct (sample.stringField ref "name") as [name| |]; simpl; [|done..].
    intros [= <-]. right. by exists name.
  - intros [= <-]. by left.
Qed.

Lemma sample_configMapRefField m r :
  sample.configMapRefField m = Ok r →
  r = None ∨ ∃ name, r = Some {| corev1.configMapReference := {| corev1.Name := name |};
                                 corev1.configMapOptional := None |}.
Proof.
  unfold sample.configMapRefField.
  destruct (m !! "configMapRef") as [[| | | | |ref]|]; try done.
  - intros [= <-]. by left.
  - destruct (sample.stringField ref "name") as [name| |]; simpl; [|done..].
    intros [= <-]. right. by exists name.
  - intros [= <-]. by left.
Qed.

Lemma sample_envFrom_reads_back v env :
  sample.envFromOfValue v = Ok env →
  sample.envFromOfValue (sample.valueOfEnvFrom env) = Ok env.
Proof.
  destruct v as [| | | | |m]; try done. simpl.
  destruct (sample.stringField m "prefix") as [prefix| |]; simpl; [|done..].
  destruct (sample.configMapRefField m) as [cm| |] eqn:Hcm; simpl; [|done..].
  destruct (sample.secretRefField m) as [s| |] eqn:Hs; simpl; [|done..].
  intros [= <-].
  apply sample_configMapRefField in Hcm as [->|[cname ->]];
    apply sample_secretRefField in Hs as [->|[sname ->]];
    unfold sample.valueOfEnvFrom; simpl;
    destruct (String.eqb_spec prefix "") as [->|Hp]; try reflexivity.
Qed.

Lemma mapM_outcome_cons {A B} (f : A → outcome B) x l :
  mapM f (x :: l) = (y ← f x; k ← mapM f l; Ok (y :: k)).
Proof. reflexivity. Qed.

Lemma sample_mapM_reads_back l envs :
  mapM sample.envFromOfValue l = Ok envs →
  mapM sample.envFromOfValue (sample.valueOfEnvFrom <$> envs) = Ok envs.
Proof.
  revert envs. induction l as [|v l IH]; intros envs.
  - by intros [= <-].
  - rewrite mapM_outcome_cons.
    destruct (sample.envFromOfValue v) as [env| |] eqn:Hv; [|done..].
    destruct (mapM sample.envFromOfValue l) as [rest| |]; [|done..].
    intros [= <-]. rewrite fmap_cons, mapM_outcome_cons.
    rewrite (sample_envFrom_reads_back v env Hv).
    by rewrite (IH rest eq_refl).
Qed.

Lemma sample_mapM_snoc envs secret :
  mapM sample.envFromOfValue (sample.valueOfEnvFrom <$> envs) = Ok envs →
  mapM sample.envFromOfValue
    (sample.valueOfEnvFrom <$> (envs ++ [secretEnvFrom secret]))
  = Ok (envs ++ [secretEnvFrom secret]).
Proof.
  induction envs as [|env envs IH]; [done|].
  rewrite <-app_comm_cons, !fmap_cons, !mapM_outcome_cons.
  destruct (sample.envFromOfValue (sample.valueOfEnvFrom env))
    as [env'| |]; [|done..].
  destruct (mapM sample.envFromOfValue (sample.valueOfEnvFrom <$> envs))
    as [rest| |]; [|done..].
  intros [= -> ->]. by rewrite (IH eq_refl).
Qed.

Lemma sample_readsBack secret : readsBack secret.
Proof.
  intros u c envFrom u' Hc Henv Hu'. simpl in *.
  assert (corev1.OtherFields c = delete "envFrom" u
          ∧ mapM sample.envFromOfValue
              (sample.valueOfEnvFrom <$> corev1.EnvFrom c)
            = Ok (corev1.EnvFrom c)) as [Hother Hread].
  { unfold sample.containerFrom in Hc.
    destruct (u !! "envFrom") as [[| | | |l|]|]; simpl in Hc; try done.
    - by injection Hc as <-.
    - destruct (mapM sample.envFromOfValue l) as [envs| |] eqn:Hl;
        simpl in Hc; [|done..].
      injection Hc as <-. split; [done|]. by eapply sample_mapM_reads_back.
    - by injection Hc as <-. }
  assert (mapM sample.envFromOfValue (sample.valueOfEnvFrom <$> envFrom)
          = Ok envFrom) as Hread'.
  { apply scan_Ok in Henv as [[-> _]|[-> _]]; [done|].
    by apply sample_mapM_snoc. }
  unfold sample.containerTo in Hu'.
  cbn [corev1.EnvFrom corev1.OtherFields] in Hu'. rewrite Hother in *.
  unfold sample.containerFrom.
  destruct envFrom as [|env envFrom]; injection Hu' as <-.
  - rewrite lookup_delete_eq. simpl. by rewrite delete_delete_eq.
  - rewrite lookup_insert_eq. cbv beta iota.
    change (sample.valueOfEnvFrom env
            :: list_fmap _ _ sample.valueOfEnvFrom envFrom)
      with (sample.valueOfEnvFrom <$> env :: envFrom).
    rewrite Hread'. simpl.
    by rewrite delete_insert_eq, delete_delete_eq.
Qed.

(** A nil on the way to the containers is an accessor error, a missing
    key is the path not found. *)
Example bindObject_nil_on_the_way :
  bindObject (sample.binder "sbr" "Deployment")
    (sample.named "web" "Deployment" {[ "template" := VNil ]})
  = Err (ErrAccessor ["spec"; "template"; "spec"])
  ∧ bindObject (sample.binder "sbr" "Deployment") (sample.bare "web")
    = Err (ErrNestedPathNotFound ["spec"; "template"; "spec"; "containers"]
             "Deployment").
Proof. split; vm_compute; reflexivity. Qed.

(** The same for the owned descriptors of a packaging object. *)
Example extractOwnedCRDs_nil_on_the_way :
  extractOwnedCRDs
    [sample.named "etcd" "ClusterServiceVersion"
       {[ "customresourcedefinitions" := VNil ]}]
  = Err (ErrAccessor ["spec"; "customresourcedefinitions"; "owned"])
  ∧ extractOwnedCRDs [fixtures.etcd] = Ok [].
Proof. split; vm_compute; reflexivity. Qed.

(** ** Runs of the further properties *)

Lemma appendEnvFrom_ensures_secret_witness :
  Exists (namesSecret "db") [secretEnvFrom "cache"; secretEnvFrom "db"].
Proof.
  apply (appendEnvFrom_ensures_secret [secretEnvFrom "cache"] _ "db").
  reflexivity.
Defined.

Lemma appendEnvFrom_names_unique_witness :
  NoDup (secretNames [secretEnvFrom "cache"; secretEnvFrom "db"]).
Proof.
  apply (appendEnvFrom_names_unique [secretEnvFrom "cache"] _ "db").
  - apply NoDup_singleton.
  - reflexivity.
Defined.

Lemma Bind_unsupported_kind_witness :
  Bind (sample.binder "sbr" "StatefulSet")
       (sample.world [sample.deployment "web" []])
  = (Err (ErrUnsupportedKind "statefulset"),
     sample.world [sample.deployment "web" []]).
Proof.
  refine (proj1 (Bind_unsupported_kind (sample.binder "sbr" "StatefulSet")
                   (sample.world [sample.deployment "web" []]) _ _)).
  - intros Hkind. vm_compute in Hkind. discriminate.
  - intros Hkind. vm_compute in Hkind. discriminate.
Defined.

Lemma Bind_success_witness :
  ∃ gvk items done,
    getListGVK (sample.binder "sbr" "Deployment") = Ok gvk
    ∧ ctrlclient.List sample.listClient
        {| ctrlclient.Namespace := "binder";
           ctrlclient.LabelSelector := {[ "connects-to" := "database" ]} |}
        gvk [sample.deployment "web" []; sample.bound "api" "sbr"]
      = Ok items
    ∧ Forall2 (λ o o', bindObject (sample.binder "sbr" "Deployment") o = Ok o')
        items done
    ∧ applyUpdates sample.listClient done
        [sample.deployment "web" []; sample.bound "api" "sbr"]
      = Some [sample.bound "web" "sbr"; sample.bound "api" "sbr"]
    ∧ [sample.bound "web" "sbr"; sample.bound "api" "sbr"] = [] ++ done.
Proof.
  apply (Bind_success (sample.binder "sbr" "Deployment")
           (sample.world [sample.deployment "web" []; sample.bound "api" "sbr"])
           {| cluster := [sample.bound "web" "sbr"; sample.bound "api" "sbr"];
              issued := [sample.bound "web" "sbr"; sample.bound "api" "sbr"] |}).
  vm_compute. reflexivity.
Defined.

Lemma bindObject_frame_witness :
  GetKind (sample.bound "web" "sbr") = GetKind (sample.deployment "web" [])
  ∧ GetName (sample.bound "web" "sbr") = GetName (sample.deployment "web" []).
Proof.
  destruct (bindObject_frame (sample.binder "sbr" "Deployment")
              (sample.deployment "web" []) (sample.bound "web" "sbr"))
    as (containers & bound & _ & _ & _ & _ & _ & Hkind & Hname).
  - vm_compute. reflexivity.
  - by split.
Defined.

Lemma update_converges_witness :
  ∃ done,
    [sample.bound "web" "sbr"] = [] ++ done
    ∧ Forall2 (λ o o', bindObject (sample.binder "sbr" "Deployment") o = Ok o')
        [sample.deployment "web" []] done
    ∧ Forall (λ o', bindObject (sample.binder "sbr" "Deployment") o' = Ok o')
        done.
Proof.
  apply (update_converges (sample.binder "sbr" "Deployment")
           (sample.deploymentList [sample.deployment "web" []])
           (sample.world [sample.deployment "web" []])
           {| cluster := [sample.bound "web" "sbr"];
              issued := [sample.bound "web" "sbr"] |}).
  - apply sample_readsBack.
  - vm_compute. reflexivity.
Defined.

Lemma update_panics_without_secret_ref_witness :
  update (sample.binder "sbr" "Deployment")
    (sample.deploymentList
       [sample.deployment "web" []; fixtures.configured "api";
        sample.deployment "jobs" []])
    (sample.world [sample.deployment "web" []; fixtures.configured "api";
                   sample.deployment "jobs" []])
  = (Panic NilDereference,
     {| cluster := [sample.bound "web" "sbr"; fixtures.configured "api";
                    sample.deployment "jobs" []];
        issued := [sample.bound "web" "sbr"] |}).
Proof.
  apply (update_panics_without_secret_ref
           (sample.binder "sbr" "Deployment") _
           [sample.deployment "web" []] (fixtures.configured "api")
           [sample.deployment "jobs" []] _ _
           [] (fixtures.container
                 [sample.valueOfEnvFrom (sample.configMapOnly "settings")])
           [] []
           {| corev1.EnvFrom := [sample.configMapOnly "settings"];
              corev1.OtherFields := {[ "name" := VString "app" ]} |}
           [] (sample.configMapOnly "settings") []).
  - reflexivity.
  - vm_compute. reflexivity.
  - vm_compute. reflexivity.
  - reflexivity.
  - vm_compute. reflexivity.
  - reflexivity.
  - constructor.
  - reflexivity.
Defined.

Lemma update_panics_on_non_map_witness :
  update (sample.binder "sbr" "Deployment")
    (sample.deploymentList
       [sample.deployment "web" []; fixtures.malformed "api"])
    (sample.world [sample.deployment "web" []; fixtures.malformed "api"])
  = (Panic TypeAssertion,
     {| cluster := [sample.bound "web" "sbr"; fixtures.malformed "api"];
        issued := [sample.bound "web" "sbr"] |}).
Proof.
  apply (update_panics_on_non_map
           (sample.binder "sbr" "Deployment") _
           [sample.deployment "web" []] (fixtures.malformed "api") [] _ _
           [] (VString "app") [] []).
  - reflexivity.
  - vm_compute. reflexivity.
  - vm_compute. reflexivity.
  - reflexivity.
  - done.
Defined.

Lemma ListCSVOwnedCRDs_flattens_witness :
  ListCSVOwnedCRDs (NewOLM (sample.csvClient sample.catalog) "binder")
  = Ok [ {| Object := fixtures.databaseEntry "v2" "Database" |};
         {| Object := fixtures.databaseEntry "v1alpha1" "database" |};
         {| Object := fixtures.databaseEntry "" "DATABASE" |} ].
Proof.
  refine (proj1 (ListCSVOwnedCRDs_flattens
           (NewOLM (sample.csvClient sample.catalog) "binder")
           sample.catalog
           [[]; [fixtures.databaseEntry "v2" "Database";
                 fixtures.databaseEntry "v1alpha1" "database";
                 fixtures.databaseEntry "" "DATABASE"]] _ _)).
  - reflexivity.
  - constructor; [|constructor; [|constructor]].
    + right. split; [vm_compute; reflexivity | reflexivity].
    + left. vm_compute. reflexivity.
Defined.

Lemma extractOwnedCRDs_first_failure_witness :
  extractOwnedCRDs
    ([fixtures.etcd; sample.postgresql]
     ++ sample.csv "broken" [VMap (fixtures.databaseEntry "v1" "Queue");
                             VString "queue"]
     :: [sample.postgresql])
  = Panic TypeAssertion.
Proof.
  refine (proj2 (extractOwnedCRDs_first_failure
           [fixtures.etcd; sample.postgresql] _ [sample.postgresql]
           [[]; [fixtures.databaseEntry "v1alpha1" "Database"]] _)
           [fixtures.databaseEntry "v1" "Queue"] (VString "queue") [] _ _).
  - constructor; [|constructor; [|constructor]].
    + right. split; [vm_compute; reflexivity | reflexivity].
    + left. vm_compute. reflexivity.
  - vm_compute. reflexivity.
  - done.
Defined.

Lemma SelectCRDByGVK_conversion_error_witness :
  SelectCRDByGVK
    (NewOLM (sample.csvClient
               [sample.csv "postgresql-operator.v0.1.0"
                  [VMap (fixtures.databaseEntry "v1alpha1" "Database");
                   VMap fixtures.numbered]]) "binder")
    (sample.requested "postgresql.baiju.dev")
  = Err (ErrExternal "cannot convert to string").
Proof.
  apply (SelectCRDByGVK_conversion_error _ _
           [sample.csv "postgresql-operator.v0.1.0"
              [VMap (fixtures.databaseEntry "v1alpha1" "Database");
               VMap fixtures.numbered]]
           [[fixtures.databaseEntry "v1alpha1" "Database"; fixtures.numbered]]
           [fixtures.databaseEntry "v1alpha1" "Database"] fixtures.numbered []
           [sample.database "v1alpha1" "Database"]).
  - reflexivity.
  - constructor; [|constructor]. left. vm_compute. reflexivity.
  - reflexivity.
  - constructor; [|constructor]. vm_compute. reflexivity.
  - vm_compute. reflexivity.
Defined.

Lemma extractGVKs_in_order_witness :
  extractGVKs [ {| Object := fixtures.databaseEntry "v1alpha1" "Database" |};
                {| Object := fixtures.databaseEntry "v2" "Database" |} ]
  = Ok [ {| schema.Group := "postgresql.baiju.dev";
            schema.Version := "v1alpha1"; schema.Kind := "Database" |};
         {| schema.Group := "postgresql.baiju.dev";
            schema.Version := "v2"; schema.Kind := "Database" |} ].
Proof.
  refine (proj1 (extractGVKs_in_order
           [fixtures.databaseEntry "v1alpha1" "Database";
            fixtures.databaseEntry "v2" "Database"]
           [sample.database "v1alpha1" "Database";
            sample.database "v2" "Database"] _)).
  constructor; [|constructor; [|constructor]]; vm_compute; reflexivity.
Defined.

Lemma ListCSVOwnedCRDsAsGVKs_one_per_csv_witness :
  ListCSVOwnedCRDsAsGVKs (NewOLM (sample.csvClient sample.catalog) "binder")
  = Ok [ {| schema.Group := ""; schema.Version := "";
            schema.Kind := "ClusterServiceVersion" |};
         {| schema.Group := ""; schema.Version := "";
            schema.Kind := "ClusterServiceVersion" |} ].
Proof.
  refine (proj1 (ListCSVOwnedCRDsAsGVKs_one_per_csv
           (NewOLM (sample.csvClient sample.catalog) "binder")
           sample.catalog [fixtures.csvItself; fixtures.csvItself] _ _)).
  - reflexivity.
  - constructor; [|constructor; [|constructor]]; vm_compute; reflexivity.
Defined.

Lemma gvkOf_group_witness :
  schema.Group (gvkOf (sample.database "v1alpha1" "Database"))
  = "postgresql.baiju.dev".
Proof.
  apply (proj1 (gvkOf_group (sample.database "v1alpha1" "Database"))
           "databases" "postgresql.baiju.dev"); reflexivity.
Defined.
